(** * SourceIndex: the cache of libclang translation units

    A shallow embedding of
    [src/cpp/session/modules/clang/libclang/SourceIndex.cpp].

    The [SourceIndex] object keeps a [std::map] from absolute file names to
    stored translation units and decides, for each request, whether the
    stored unit is reused, reparsed in place or rebuilt.  libclang itself,
    the compilation database, the unsaved files and the file system are
    collaborators: libclang is an interface with an abstract state, the
    others are read through an [Environment]. *)

From Stdlib Require Import String Ascii List ZArith Lia Bool.
From Stdlib Require Import FSets.FMapList FSets.FMapFacts.
From Stdlib Require Import Structures.OrderedTypeEx.
Import ListNotations.

Open Scope string_scope.

(** ** File paths *)

Module FilePath.

(** Modelled from the spec: [core::FilePath] (core/FilePath.hpp) is not
    among the sources.  A path is represented by its absolute path; its
    extension is the part of the last path component that starts at the
    rightmost dot (none for the components "." and ".."), and
    [extensionLowerCase] lowers the ASCII letters of the extension. *)
Definition t := string.

Definition absolutePath (p : t) : string := p.

(** the component after the last slash *)
Fixpoint filename_from (acc : string) (p : string) : string :=
  match p with
  | EmptyString => acc
  | String c rest =>
      if Ascii.eqb c "/"%char then filename_from rest rest
      else filename_from acc rest
  end.

Definition filename (p : t) : string := filename_from p p.

(** the suffix of [s] that starts at its rightmost dot *)
Fixpoint from_last_dot (s : string) : option string :=
  match s with
  | EmptyString => None
  | String c rest =>
      match from_last_dot rest with
      | Some e => Some e
      | None => if Ascii.eqb c "."%char then Some s else None
      end
  end.

Definition extension (p : t) : string :=
  let name := filename p in
  if (name =? ".") || (name =? "..") then ""
  else match from_last_dot name with
       | Some e => e
       | None => ""
       end.

Definition lower_char (c : ascii) : ascii :=
  let n := N_of_ascii c in
  if ((65 <=? n) && (n <=? 90))%N then ascii_of_N (n + 32) else c.

Fixpoint toLower (s : string) : string :=
  match s with
  | EmptyString => EmptyString
  | String c rest => String (lower_char c) (toLower rest)
  end.

Definition extensionLowerCase (p : t) : string := toLower (extension p).

End FilePath.

(** ** Classification of paths *)

(** [SourceIndex::isTranslationUnit] *)
Definition isTranslationUnit (filePath : FilePath.t) : bool :=
  let ex := FilePath.extensionLowerCase filePath in
  (ex =? ".c") || (ex =? ".cc") || (ex =? ".cpp") ||
  (ex =? ".m") || (ex =? ".mm").

(** The two classes of the specification. *)
Inductive PathClass := SourceFile | HeaderFile.

Definition classifyPath (filePath : FilePath.t) : PathClass :=
  if isTranslationUnit filePath then SourceFile else HeaderFile.

(** The extensions of compilable translation units. *)
Definition sourceExtensions : list string :=
  [".c"; ".cc"; ".cpp"; ".m"; ".mm"].

(** ** Data model *)

(** [TranslationUnits], a [std::map<std::string, StoredTranslationUnit>]:
    a finite map whose keys are unique and which is traversed in the
    lexicographic order of its keys. *)
Module TranslationUnits := FMapList.Make(String_as_OT).
Module TUFacts := FMapFacts.Facts(TranslationUnits).
Module TUProps := FMapFacts.Properties(TranslationUnits).

(** [CXIndex] and [CXTranslationUnit] are opaque pointers handed out by
    libclang; the null pointer is [0]. *)
Definition CXIndex := N.
Definition CXTranslationUnit := N.
Definition NULL : N := 0%N.

Record CXUnsavedFile := {
  Filename : string;
  Contents : string
}.

(** Modelled from the spec: [StoredTranslationUnit] is declared in
    SourceIndex.hpp, which is not among the sources; its fields are the
    compile arguments, the last write time and the handle. *)
Record StoredTranslationUnit := {
  compileArgs : list string;
  lastWriteTime : Z;
  tu : CXTranslationUnit
}.

Definition TranslationUnitsMap := TranslationUnits.t StoredTranslationUnit.

(** Modelled from the spec: [TranslationUnit] (TranslationUnit.hpp, not
    among the sources) is the result handed to callers, a file name paired
    with a borrowed handle; the default-constructed one is empty. *)
Record TranslationUnit := {
  filename_ : string;
  cxTU_ : CXTranslationUnit
}.

Definition emptyTranslationUnit : TranslationUnit :=
  {| filename_ := ""; cxTU_ := NULL |}.

Definition empty (t : TranslationUnit) : bool := (cxTU_ t =? NULL)%N.

(** ** Collaborators *)

(** The libclang entry points that the index calls through [clang()].
    The state [E] of the library is abstract.  The option words that the
    code asks of the library and hands back to it at once
    ([defaultReparseOptions], [defaultEditingTranslationUnitOptions]) are
    left to the library.  [getFile] is the query behind
    [TranslationUnit::includesFile]. *)
Class LibClang (E : Type) := {
  createIndex : Z -> Z -> E -> CXIndex * E;
  CXIndex_getGlobalOptions : CXIndex -> E -> N;
  CXIndex_setGlobalOptions : CXIndex -> N -> E -> E;
  parseTranslationUnit :
    CXIndex -> string -> list string -> list CXUnsavedFile -> E ->
    CXTranslationUnit * E;
  reparseTranslationUnit :
    CXTranslationUnit -> list CXUnsavedFile -> E -> Z * E;
  disposeTranslationUnit : CXTranslationUnit -> E -> E;
  getFile : CXTranslationUnit -> string -> E -> bool
}.

(** The calls issued to libclang, in order. *)
Inductive Call :=
| CreateIndexCall (excludeDeclarationsFromPCH displayDiagnostics : Z)
| SetGlobalOptionsCall (index : CXIndex) (options : N)
| ParseCall (index : CXIndex) (filename : string) (args : list string)
            (unsaved : list CXUnsavedFile)
| ReparseCall (handle : CXTranslationUnit) (unsaved : list CXUnsavedFile)
| DisposeCall (handle : CXTranslationUnit)
| GetFileCall (handle : CXTranslationUnit) (file : string).

(** What the index reads and does not own: the compilation database
    behind [pCompilationDatabase_], the file system and [unsavedFiles()]. *)
Record Environment := {
  compileArgsForTranslationUnit : FilePath.t -> list string;
  translationUnits : list FilePath.t;
  fileLastWriteTime : FilePath.t -> Z;
  unsavedFiles : list CXUnsavedFile
}.

(** The [SourceIndex] object, together with the state of libclang, the
    calls made to it so far and the messages given to [LOG_ERROR_MESSAGE].
    The output to [std::cerr] and the performance timer of the verbose
    mode are left out. *)
Record SourceIndex (E : Type) := mkSourceIndex {
  index_ : CXIndex;
  verbose_ : Z;
  translationUnits_ : TranslationUnitsMap;
  engine : E;
  calls : list Call;
  errorLog : list string
}.

Arguments mkSourceIndex {E}.
Arguments index_ {E}.
Arguments verbose_ {E}.
Arguments translationUnits_ {E}.
Arguments engine {E}.
Arguments calls {E}.
Arguments errorLog {E}.

(** ** The monad of the index

    State passing, with [None] when the fuel of the recursion between
    [getTranslationUnit] and [getHeaderTranslationUnit] runs out. *)
Definition M (E A : Type) : Type :=
  SourceIndex E -> option (A * SourceIndex E).

Definition ret {E A} (a : A) : M E A := fun s => Some (a, s).

Definition bind {E A B} (c : M E A) (k : A -> M E B) : M E B :=
  fun s => match c s with
           | Some (a, s') => k a s'
           | None => None
           end.

Definition outOfFuel {E A} : M E A := fun _ => None.

Notation "x <- c ;; k" := (bind c (fun x => k))
  (at level 61, c at next level, right associativity).
Notation "c ;;; k" := (bind c (fun _ => k))
  (at level 61, right associativity).

(** ** The operations of the index *)

Section Index.

Context {E : Type} `{LibClang E}.
Variable env : Environment.

(** *** Primitive effects *)

Definition getUnits : M E TranslationUnitsMap :=
  fun s => Some (translationUnits_ s, s).

Definition setUnits (m : TranslationUnitsMap) : M E unit :=
  fun s => Some (tt, mkSourceIndex (index_ s) (verbose_ s) m (engine s)
                       (calls s) (errorLog s)).

Definition getVerbose : M E Z := fun s => Some (verbose_ s, s).

Definition getIndex : M E CXIndex := fun s => Some (index_ s, s).

Definition logErrorMessage (msg : string) : M E unit :=
  fun s => Some (tt, mkSourceIndex (index_ s) (verbose_ s)
                       (translationUnits_ s) (engine s) (calls s)
                       (errorLog s ++ [msg])%list).

Definition clangParse (index : CXIndex) (filename : string)
           (args : list string) (unsaved : list CXUnsavedFile)
  : M E CXTranslationUnit :=
  fun s => let (h, e) :=
             parseTranslationUnit index filename args unsaved (engine s) in
           Some (h, mkSourceIndex (index_ s) (verbose_ s)
                      (translationUnits_ s) e
                      (calls s ++ [ParseCall index filename args unsaved])%list
                      (errorLog s)).

Definition clangReparse (h : CXTranslationUnit)
           (unsaved : list CXUnsavedFile) : M E Z :=
  fun s => let (r, e) := reparseTranslationUnit h unsaved (engine s) in
           Some (r, mkSourceIndex (index_ s) (verbose_ s)
                      (translationUnits_ s) e
                      (calls s ++ [ReparseCall h unsaved])%list
                      (errorLog s)).

Definition clangDispose (h : CXTranslationUnit) : M E unit :=
  fun s => Some (tt, mkSourceIndex (index_ s) (verbose_ s)
                       (translationUnits_ s)
                       (disposeTranslationUnit h (engine s))
                       (calls s ++ [DisposeCall h])%list
                       (errorLog s)).

(** [TranslationUnit::includesFile] *)
Definition includesFile (t : TranslationUnit) (filePath : FilePath.t)
  : M E bool :=
  fun s => Some (getFile (cxTU_ t) (FilePath.absolutePath filePath)
                         (engine s),
                 mkSourceIndex (index_ s) (verbose_ s) (translationUnits_ s)
                   (engine s)
                   (calls s ++ [GetFileCall (cxTU_ t)
                                  (FilePath.absolutePath filePath)])%list
                   (errorLog s)).

(** *** The member functions *)

(** [SourceIndex::initialize]; the compilation database it is given is
    [env]. *)
Definition initialize (verbose : Z) : M E unit :=
  fun s =>
    let diagnostics := if (0 <? verbose)%Z then 1%Z else 0%Z in
    let (i, e) := createIndex 0 diagnostics (engine s) in
    Some (tt, mkSourceIndex i verbose (translationUnits_ s) e
                (calls s ++ [CreateIndexCall 0 diagnostics])%list
                (errorLog s)).



(** [SourceIndex::removeTranslationUnit] *)
Definition removeTranslationUnit (filename : string) : M E unit :=
  units <- getUnits ;;
  match TranslationUnits.find filename units with
  | Some stored =>
      clangDispose (tu stored) ;;;
      setUnits (TranslationUnits.remove filename units)
  | None => ret tt
  end.

(** the loop of [SourceIndex::removeAllTranslationUnits] *)
Fixpoint disposeAll (l : list (string * StoredTranslationUnit))
  : M E unit :=
  match l with
  | [] => ret tt
  | (_, stored) :: rest => clangDispose (tu stored) ;;; disposeAll rest
  end.

(** [SourceIndex::removeAllTranslationUnits] *)
Definition removeAllTranslationUnits : M E unit :=
  units <- getUnits ;;
  disposeAll (TranslationUnits.elements units) ;;;
  setUnits (TranslationUnits.empty StoredTranslationUnit).

(** The tail of [SourceIndex::getTranslationUnit], from the comment
    "if we got this far" on: remove what is stored, parse, and store the
    result when the parse succeeded. *)
Definition fullRebuild (filePath : FilePath.t) (args : list string)
           (writeTime : Z) : M E TranslationUnit :=
  let filename := FilePath.absolutePath filePath in
  removeTranslationUnit filename ;;;
  v <- getVerbose ;;
  let args := if (2 <=? v)%Z then (args ++ ["-v"])%list else args in
  index <- getIndex ;;
  h <- clangParse index filename args (unsavedFiles env) ;;
  if negb (h =? NULL)%N then
    units <- getUnits ;;
    setUnits (TranslationUnits.add filename
                {| compileArgs := args; lastWriteTime := writeTime;
                   tu := h |} units) ;;;
    ret {| filename_ := filename; cxTU_ := h |}
  else
    logErrorMessage ("Error parsing translation unit " ++ filename) ;;;
    ret emptyTranslationUnit.

(** [SourceIndex::getTranslationUnit] on a path that is a translation
    unit: everything after the test that sends headers elsewhere. *)
Definition getSourceTranslationUnit (filePath : FilePath.t)
  : M E TranslationUnit :=
  let args := compileArgsForTranslationUnit env filePath in
  let writeTime := fileLastWriteTime env filePath in
  let filename := FilePath.absolutePath filePath in
  units <- getUnits ;;
  match TranslationUnits.find filename units with
  | Some stored =>
      if list_eq_dec string_dec args (compileArgs stored) then
        if (writeTime =? lastWriteTime stored)%Z then
          ret {| filename_ := filename; cxTU_ := tu stored |}
        else
          r <- clangReparse (tu stored) (unsavedFiles env) ;;
          if (r =? 0)%Z then
            units' <- getUnits ;;
            setUnits (TranslationUnits.add filename
                        {| compileArgs := compileArgs stored;
                           lastWriteTime := writeTime;
                           tu := tu stored |} units') ;;;
            ret {| filename_ := filename; cxTU_ := tu stored |}
          else
            logErrorMessage
              ("Error re-parsing translation unit " ++ filename) ;;;
            fullRebuild filePath args writeTime
      else fullRebuild filePath args writeTime
  | None => fullRebuild filePath args writeTime
  end.

(** The first loop of [SourceIndex::getHeaderTranslationUnit]: the scan
    of the stored units, in the order of the map. *)
Fixpoint scanStored (filePath : FilePath.t)
         (l : list (string * StoredTranslationUnit))
  : M E (option TranslationUnit) :=
  match l with
  | [] => ret None
  | (name, stored) :: rest =>
      let t := {| filename_ := name; cxTU_ := tu stored |} in
      b <- includesFile t filePath ;;
      if b then ret (Some t) else scanStored filePath rest
  end.

(** The second loop of [SourceIndex::getHeaderTranslationUnit], over the
    source files of the compilation database; [get] is
    [getTranslationUnit]. *)
Fixpoint searchSources (get : FilePath.t -> M E TranslationUnit)
         (filePath : FilePath.t) (srcFiles : list FilePath.t)
  : M E TranslationUnit :=
  match srcFiles with
  | [] => ret emptyTranslationUnit
  | srcFile :: rest =>
      t <- get srcFile ;;
      if negb (empty t) then
        b <- includesFile t filePath ;;
        if b then ret t
        else
          removeTranslationUnit (FilePath.absolutePath filePath) ;;;
          searchSources get filePath rest
      else searchSources get filePath rest
  end.

(** [SourceIndex::getHeaderTranslationUnit], with the call back into
    [getTranslationUnit] as [get]. *)
Definition getHeaderTranslationUnitWith
           (get : FilePath.t -> M E TranslationUnit)
           (filePath : FilePath.t) : M E TranslationUnit :=
  units <- getUnits ;;
  found <- scanStored filePath (TranslationUnits.elements units) ;;
  match found with
  | Some t => ret t
  | None => searchSources get filePath (translationUnits env)
  end.

(** [SourceIndex::getTranslationUnit].  The function and
    [getHeaderTranslationUnit] call each other, and nothing in the code
    bounds the depth when the compilation database lists a file that is
    not a translation unit; [fuel] bounds it here. *)
Fixpoint getTranslationUnit (fuel : nat) (filePath : FilePath.t)
  : M E TranslationUnit :=
  match fuel with
  | O => outOfFuel
  | S fuel' =>
      if negb (isTranslationUnit filePath) then
        getHeaderTranslationUnitWith (getTranslationUnit fuel') filePath
      else getSourceTranslationUnit filePath
  end.

(** [SourceIndex::getHeaderTranslationUnit] *)
Definition getHeaderTranslationUnit (fuel : nat) (filePath : FilePath.t)
  : M E TranslationUnit :=
  getHeaderTranslationUnitWith (getTranslationUnit fuel) filePath.

(** [SourceIndex::primeTranslationUnit] *)
Definition primeTranslationUnit (fuel : nat) (filePath : FilePath.t)
  : M E unit :=
  let filename := FilePath.absolutePath filePath in
  units <- getUnits ;;
  match TranslationUnits.find filename units with
  | None => getTranslationUnit fuel filePath ;;; ret tt
  | Some _ => ret tt
  end.

(** [SourceIndex::reprimeTranslationUnit] *)
Definition reprimeTranslationUnit (fuel : nat) (filePath : FilePath.t)
  : M E unit :=
  let filename := FilePath.absolutePath filePath in
  units <- getUnits ;;
  match TranslationUnits.find filename units with
  | Some _ => getTranslationUnit fuel filePath ;;; ret tt
  | None => ret tt
  end.

End Index.

(** ** The object and its compilation database

    [pCompilationDatabase_] is null in a constructed object and is set by
    [initialize].  The member functions above take as [env] the database
    that the pointer leads to; here the pointer itself is kept, and a
    member function that reads through it while it is null ends in
    [NullDatabase], the fault of that access. *)
Module Object.

Record t (E : Type) := make {
  pCompilationDatabase_ : option Environment;
  members : SourceIndex E
}.

Arguments make {E}.
Arguments pCompilationDatabase_ {E}.
Arguments members {E}.

Inductive Outcome (E A : Type) : Type :=
| Returned (a : A) (o : t E)
| NullDatabase
| OutOfFuel.

Arguments Returned {E A}.
Arguments NullDatabase {E A}.
Arguments OutOfFuel {E A}.

Section Members.

Context {E : Type} `{LibClang E}.

(** [SourceIndex::initialize], with the pointer it is given *)
Definition initialize (pCompilationDatabase : option Environment)
           (verbose : Z) (o : t E) : Outcome E unit :=
  match initialize verbose (members o) with
  | Some (_, s) => Returned tt (make pCompilationDatabase s)
  | None => OutOfFuel
  end.

(** [SourceIndex::getTranslationUnit] on the object.  With a null
    database a translation unit reaches the access of line 134 at once,
    and a header reaches the one of line 231 when the scan of the stored
    units has found nothing. *)
Definition getTranslationUnit (fuel : nat) (filePath : FilePath.t) (o : t E)
  : Outcome E TranslationUnit :=
  match pCompilationDatabase_ o with
  | Some env =>
      match getTranslationUnit env fuel filePath (members o) with
      | Some (unit, s) => Returned unit (make (Some env) s)
      | None => OutOfFuel
      end
  | None =>
      if negb (isTranslationUnit filePath) then
        match scanStored filePath
                (TranslationUnits.elements (translationUnits_ (members o)))
                (members o) with
        | Some (Some unit, s) => Returned unit (make None s)
        | Some (None, _) => NullDatabase
        | None => OutOfFuel
        end
      else NullDatabase
  end.

End Members.

End Object.

(** [SourceIndex::SourceIndex]: no index yet, no compilation database,
    not verbose, nothing stored. *)
Definition newSourceIndex {E : Type} (e : E) : Object.t E :=
  Object.make None
    (mkSourceIndex NULL 0 (TranslationUnits.empty StoredTranslationUnit) e
       [] []).

(** ** Vocabulary of the statements *)

Section Vocabulary.

Context {E : Type} `{LibClang E}.
Variable env : Environment.

(** the index after [removeTranslationUnit] *)
Definition afterRemove (filename : string) (s : SourceIndex E)
  : SourceIndex E :=
  match TranslationUnits.find filename (translationUnits_ s) with
  | Some stored =>
      mkSourceIndex (index_ s) (verbose_ s)
        (TranslationUnits.remove filename (translationUnits_ s))
        (disposeTranslationUnit (tu stored) (engine s))
        (calls s ++ [DisposeCall (tu stored)])
        (errorLog s)
  | None => s
  end.

(** the arguments given to the parser *)
Definition parseArgs (s : SourceIndex E) (args : list string)
  : list string :=
  if (2 <=? verbose_ s)%Z then (args ++ ["-v"])%list else args.

(** the index after the parse of [fullRebuild] returned [h] and left
    libclang in [e] *)
Definition afterParse (filename : string) (args : list string)
           (writeTime : Z) (unsaved : list CXUnsavedFile)
           (h : CXTranslationUnit) (e : E) (s : SourceIndex E)
  : TranslationUnit * SourceIndex E :=
  if negb (h =? NULL)%N then
    ({| filename_ := filename; cxTU_ := h |},
     mkSourceIndex (index_ s) (verbose_ s)
       (TranslationUnits.add filename
          {| compileArgs := args; lastWriteTime := writeTime; tu := h |}
          (translationUnits_ s))
       e (calls s ++ [ParseCall (index_ s) filename args unsaved])
       (errorLog s))
  else
    (emptyTranslationUnit,
     mkSourceIndex (index_ s) (verbose_ s) (translationUnits_ s) e
       (calls s ++ [ParseCall (index_ s) filename args unsaved])
       (errorLog s ++ ["Error parsing translation unit " ++ filename]%string)).

(** the stored unit after a successful reparse *)
Definition touched (stored : StoredTranslationUnit) (writeTime : Z)
  : StoredTranslationUnit :=
  {| compileArgs := compileArgs stored; lastWriteTime := writeTime;
     tu := tu stored |}.

(** the index after [reparseTranslationUnit] on [stored] *)
Definition afterReparse (stored : StoredTranslationUnit) (s : SourceIndex E)
  : SourceIndex E :=
  mkSourceIndex (index_ s) (verbose_ s) (translationUnits_ s)
    (snd (reparseTranslationUnit (tu stored) (unsavedFiles env) (engine s)))
    (calls s ++ [ReparseCall (tu stored) (unsavedFiles env)])
    (errorLog s).

Definition logged (msg : string) (s : SourceIndex E) : SourceIndex E :=
  mkSourceIndex (index_ s) (verbose_ s) (translationUnits_ s) (engine s)
                (calls s) (errorLog s ++ [msg]).

Definition stored_as (m : TranslationUnitsMap) (s : SourceIndex E)
  : SourceIndex E :=
  mkSourceIndex (index_ s) (verbose_ s) m (engine s) (calls s) (errorLog s).

(** libclang after the loop of [removeAllTranslationUnits] *)
Definition disposedEngine (l : list (string * StoredTranslationUnit)) (e : E)
  : E :=
  fold_left (fun e kv => disposeTranslationUnit (tu (snd kv)) e) l e.

Definition disposeCalls (l : list (string * StoredTranslationUnit))
  : list Call :=
  map (fun kv => DisposeCall (tu (snd kv))) l.

(** Every entry satisfies [P], a property of the path, the state of
    libclang and the stored unit. *)
Definition entriesSatisfy
           (P : string -> E -> StoredTranslationUnit -> Prop)
           (s : SourceIndex E) : Prop :=
  forall k st,
    TranslationUnits.find k (translationUnits_ s) = Some st ->
    P k (engine s) st.

End Vocabulary.

(** The keys of the map, in its order. *)
Definition paths (m : TranslationUnitsMap) : list string :=
  map fst (TranslationUnits.elements m).

(** No stored unit has a null handle. *)
Definition handlesNonNull (m : TranslationUnitsMap) : bool :=
  forallb (fun kv => negb (tu (snd kv) =? NULL)%N)
          (TranslationUnits.elements m).


(** What can be seen of a run: the result, the stored units in the order
    of the map, the calls made to libclang and the error log. *)
Definition observe {E A : Type} (r : option (A * SourceIndex E))
  : option (A * list (string * StoredTranslationUnit) * list Call
            * list string) :=
  match r with
  | Some (a, s) =>
      Some (a, TranslationUnits.elements (translationUnits_ s), calls s,
            errorLog s)
  | None => None
  end.

(** The contract of a library whose handles name parse results: a parse
    never returns a handle it has returned before, and no call makes the
    library forget a handle. *)
Class FreshHandles (E : Type) `{LibClang E} := {
  issued : E -> CXTranslationUnit -> Prop;
  parse_fresh : forall i f a u e,
    fst (parseTranslationUnit i f a u e) <> NULL ->
    ~ issued e (fst (parseTranslationUnit i f a u e));
  parse_issued : forall i f a u e,
    fst (parseTranslationUnit i f a u e) <> NULL ->
    issued (snd (parseTranslationUnit i f a u e))
           (fst (parseTranslationUnit i f a u e));
  parse_keeps : forall i f a u e x,
    issued e x -> issued (snd (parseTranslationUnit i f a u e)) x;
  reparse_keeps : forall h u e x,
    issued e x -> issued (snd (reparseTranslationUnit h u e)) x;
  dispose_keeps : forall h e x,
    issued e x -> issued (disposeTranslationUnit h e) x
}.

(** ** A scripted libclang

    An instance of the interface for concrete runs: handles are numbered
    from a counter, [failing] lists the files whose parse fails,
    [reparseFailing] the files whose reparse fails, and [includes] the
    pairs of a source file and a file it includes. *)
Module Scripted.

Record State := {
  nextHandle : N;
  live : list (CXTranslationUnit * string);
  options : N;
  failing : list string;
  reparseFailing : list string;
  includes : list (string * string)
}.

Definition mem (x : string) (l : list string) : bool :=
  existsb (String.eqb x) l.

Fixpoint fileOf (h : CXTranslationUnit)
         (l : list (CXTranslationUnit * string)) : option string :=
  match l with
  | [] => None
  | (h', f) :: rest => if (h =? h')%N then Some f else fileOf h rest
  end.

Definition create (excludeDeclarations displayDiagnostics : Z) (e : State)
  : CXIndex * State := (1%N, e).

Definition setOptions (i : CXIndex) (o : N) (e : State) : State :=
  {| nextHandle := nextHandle e;
     live := live e;
     options := o;
     failing := failing e;
     reparseFailing := reparseFailing e;
     includes := includes e |}.

Definition parse (i : CXIndex) (filename : string) (args : list string)
           (unsaved : list CXUnsavedFile) (e : State)
  : CXTranslationUnit * State :=
  if mem filename (failing e) then (NULL, e)
  else (nextHandle e,
        {| nextHandle := nextHandle e + 1;
           live := (nextHandle e, filename) :: live e;
           options := options e;
           failing := failing e;
           reparseFailing := reparseFailing e;
           includes := includes e |}).

Definition reparse (h : CXTranslationUnit) (unsaved : list CXUnsavedFile)
           (e : State) : Z * State :=
  match fileOf h (live e) with
  | Some f => if mem f (reparseFailing e) then (1%Z, e) else (0%Z, e)
  | None => (1%Z, e)
  end.

Definition dispose (h : CXTranslationUnit) (e : State) : State :=
  {| nextHandle := nextHandle e;
     live := filter (fun x => negb (fst x =? h)%N) (live e);
     options := options e;
     failing := failing e;
     reparseFailing := reparseFailing e;
     includes := includes e |}.

Definition file (h : CXTranslationUnit) (f : string) (e : State) : bool :=
  match fileOf h (live e) with
  | Some src =>
      existsb (fun x => String.eqb (fst x) src && String.eqb (snd x) f)
              (includes e)
  | None => false
  end.

#[global] Instance clang : LibClang State := {
  createIndex := create;
  CXIndex_getGlobalOptions := fun _ e => options e;
  CXIndex_setGlobalOptions := setOptions;
  parseTranslationUnit := parse;
  reparseTranslationUnit := reparse;
  disposeTranslationUnit := dispose;
  getFile := file
}.

(** a library that has parsed nothing yet *)
Definition initial (failing reparseFailing : list string)
           (includes : list (string * string)) : State :=
  {| nextHandle := 1; live := []; options := 0; failing := failing;
     reparseFailing := reparseFailing; includes := includes |}.

End Scripted.

(** ** Concrete runs *)

Module Scenario.

Definition flags : list string := ["-std=c++11"].

(** two source files, of which only "/a.cpp" includes "/util.h" *)
Definition env : Environment :=
  {| compileArgsForTranslationUnit := fun _ => flags;
     translationUnits := ["/b.cpp"; "/a.cpp"];
     fileLastWriteTime := fun _ => 5%Z;
     unsavedFiles := [] |}.

(** the same, after the files were written again *)
Definition envTouched : Environment :=
  {| compileArgsForTranslationUnit := fun _ => flags;
     translationUnits := ["/b.cpp"; "/a.cpp"];
     fileLastWriteTime := fun _ => 6%Z;
     unsavedFiles := [] |}.

(** the same, with other compile arguments *)
Definition envFlags : Environment :=
  {| compileArgsForTranslationUnit := fun _ => ["-std=c++14"];
     translationUnits := ["/b.cpp"; "/a.cpp"];
     fileLastWriteTime := fun _ => 5%Z;
     unsavedFiles := [] |}.

Definition lib : Scripted.State :=
  Scripted.initial [] [] [("/a.cpp", "/util.h")].

(** a library that cannot parse "/b.cpp" *)
Definition libFailing : Scripted.State :=
  Scripted.initial ["/b.cpp"] [] [("/a.cpp", "/util.h")].

(** the index once initialized, before any request *)
Definition cold : SourceIndex Scripted.State :=
  mkSourceIndex 1%N 0 (TranslationUnits.empty StoredTranslationUnit) lib
                [CreateIndexCall 0 0] [].

Definition coldFailing : SourceIndex Scripted.State :=
  mkSourceIndex 1%N 0 (TranslationUnits.empty StoredTranslationUnit) libFailing
                [CreateIndexCall 0 0] [].

(** the index after the failed parse of "/b.cpp" *)
Definition afterFailure : SourceIndex Scripted.State :=
  mkSourceIndex 1%N 0 (TranslationUnits.empty StoredTranslationUnit) libFailing
    [CreateIndexCall 0 0; ParseCall 1%N "/b.cpp" flags []]
    ["Error parsing translation unit /b.cpp"].

Definition storedA : StoredTranslationUnit :=
  {| compileArgs := flags; lastWriteTime := 5; tu := 1%N |}.

(** the index after a first request for "/a.cpp" *)
Definition warm : SourceIndex Scripted.State :=
  mkSourceIndex 1%N 0
    (TranslationUnits.add "/a.cpp" storedA
       (TranslationUnits.empty StoredTranslationUnit))
    {| Scripted.nextHandle := 2;
       Scripted.live := [(1%N, "/a.cpp")];
       Scripted.options := 0;
       Scripted.failing := [];
       Scripted.reparseFailing := [];
       Scripted.includes := [("/a.cpp", "/util.h")] |}
    [CreateIndexCall 0 0; ParseCall 1%N "/a.cpp" flags []] [].

End Scenario.

(** ** Vocabulary of the further statements *)

Section Scan.

Context {E : Type} `{LibClang E}.

(** the stored unit that the scan of [getHeaderTranslationUnit] returns:
    the first one, in the order of the map, that libclang reports as
    including [file] *)
Fixpoint firstIncluding (e : E) (file : string)
         (l : list (string * StoredTranslationUnit))
  : option TranslationUnit :=
  match l with
  | [] => None
  | (name, stored) :: rest =>
      if getFile (tu stored) file e
      then Some {| filename_ := name; cxTU_ := tu stored |}
      else firstIncluding e file rest
  end.

(** the questions that the scan puts to libclang *)
Fixpoint scanCalls (e : E) (file : string)
         (l : list (string * StoredTranslationUnit)) : list Call :=
  match l with
  | [] => []
  | (_, stored) :: rest =>
      GetFileCall (tu stored) file ::
      (if getFile (tu stored) file e then [] else scanCalls e file rest)
  end.

(** [removeTranslationUnit] on each of some paths in turn *)
Fixpoint removeEach (l : list string) : M E unit :=
  match l with
  | [] => ret tt
  | filename :: rest => removeTranslationUnit filename ;;; removeEach rest
  end.

End Scan.

Definition isParseCall (c : Call) : bool :=
  match c with
  | ParseCall _ _ _ _ => true
  | _ => false
  end.

Definition isGetFileCall (c : Call) : bool :=
  match c with
  | GetFileCall _ _ => true
  | _ => false
  end.

(** the file of a parse, for the calls that are one *)
Definition parsedFile (c : Call) : string :=
  match c with
  | ParseCall _ filename _ _ => filename
  | _ => ""
  end.

(** the number of parses among some calls *)
Definition parseCount (cs : list Call) : nat :=
  length (filter isParseCall cs).

(** No handle in the map has been disposed: every stored handle was
    returned by the library and never given to [disposeTranslationUnit],
    the disposed handles were returned by the library too, and no two
    entries share a handle. *)
Definition handlesLive {E : Type} `{FreshHandles E} (s : SourceIndex E)
  : Prop :=
  (forall k st,
      TranslationUnits.find k (translationUnits_ s) = Some st ->
      issued (engine s) (tu st) /\ ~ In (DisposeCall (tu st)) (calls s)) /\
  (forall h, In (DisposeCall h) (calls s) -> issued (engine s) h) /\
  (forall k1 k2 st1 st2,
      TranslationUnits.find k1 (translationUnits_ s) = Some st1 ->
      TranslationUnits.find k2 (translationUnits_ s) = Some st2 ->
      tu st1 = tu st2 -> k1 = k2).

(** Further concrete runs. *)
Module Runs.

(** a compilation database that lists a header first *)
Definition envHeaderListed : Environment :=
  {| compileArgsForTranslationUnit := fun _ => Scenario.flags;
     translationUnits := ["/util.h"; "/a.cpp"];
     fileLastWriteTime := fun _ => 5%Z;
     unsavedFiles := [] |}.

(** the initialized index at the highest verbosity *)
Definition coldVerbose : SourceIndex Scripted.State :=
  mkSourceIndex 1%N 2 (TranslationUnits.empty StoredTranslationUnit)
                Scenario.lib [CreateIndexCall 0 1] [].

(** a library in which no file includes another *)
Definition libPlain : Scripted.State := Scripted.initial [] [] [].

Definition coldPlain : SourceIndex Scripted.State :=
  mkSourceIndex 1%N 0 (TranslationUnits.empty StoredTranslationUnit)
                libPlain [CreateIndexCall 0 0] [].

(** the index of [Scenario.warm] with a second stored unit *)
Definition storedB : StoredTranslationUnit :=
  {| compileArgs := Scenario.flags; lastWriteTime := 5; tu := 2%N |}.

Definition warmBoth : SourceIndex Scripted.State :=
  mkSourceIndex 1%N 0
    (TranslationUnits.add "/b.cpp" storedB
       (TranslationUnits.add "/a.cpp" Scenario.storedA
          (TranslationUnits.empty StoredTranslationUnit)))
    {| Scripted.nextHandle := 3;
       Scripted.live := [(2%N, "/b.cpp"); (1%N, "/a.cpp")];
       Scripted.options := 0;
       Scripted.failing := [];
       Scripted.reparseFailing := [];
       Scripted.includes := [("/a.cpp", "/util.h")] |}
    [CreateIndexCall 0 0; ParseCall 1%N "/a.cpp" Scenario.flags [];
     ParseCall 1%N "/b.cpp" Scenario.flags []] [].

(** [Scenario.warm] after a question about "/util.h" *)
Definition warmAsked : SourceIndex Scripted.State :=
  mkSourceIndex 1%N 0 (translationUnits_ Scenario.warm)
    (engine Scenario.warm)
    (calls Scenario.warm ++ [GetFileCall 1%N "/util.h"]) [].

End Runs.

(** A libclang that hands out again the handle it was last given back,
    as an allocator that reuses a freed address does. *)
Module Recycling.

Record State := {
  nextHandle : N;
  freed : list CXTranslationUnit
}.

Definition parse (e : State) : CXTranslationUnit * State :=
  match freed e with
  | h :: rest => (h, {| nextHandle := nextHandle e; freed := rest |})
  | [] => (nextHandle e, {| nextHandle := nextHandle e + 1; freed := [] |})
  end.

Definition dispose (h : CXTranslationUnit) (e : State) : State :=
  {| nextHandle := nextHandle e; freed := h :: freed e |}.

#[global] Instance clang : LibClang State := {
  createIndex := fun _ _ e => (1%N, e);
  CXIndex_getGlobalOptions := fun _ _ => 0%N;
  CXIndex_setGlobalOptions := fun _ _ e => e;
  parseTranslationUnit := fun _ _ _ _ e => parse e;
  reparseTranslationUnit := fun _ _ e => (0%Z, e);
  disposeTranslationUnit := dispose;
  getFile := fun _ _ _ => false
}.

(** the index once initialized, before any request *)
Definition cold : SourceIndex State :=
  mkSourceIndex 1%N 0 (TranslationUnits.empty StoredTranslationUnit)
    {| nextHandle := 1; freed := [] |} [CreateIndexCall 0 0] [].

(** the index after a first request for "/a.cpp", which got handle 1 *)
Definition warm : SourceIndex State :=
  mkSourceIndex 1%N 0
    (TranslationUnits.add "/a.cpp" Scenario.storedA
       (TranslationUnits.empty StoredTranslationUnit))
    {| nextHandle := 2; freed := [] |}
    [CreateIndexCall 0 0; ParseCall 1%N "/a.cpp" Scenario.flags []] [].

End Recycling.

(** * Properties *)

(** ** Classification *)

Lemma isTranslationUnit_iff (p : FilePath.t) :
  isTranslationUnit p = true <->
  In (FilePath.extensionLowerCase p) sourceExtensions.
Proof.
  unfold isTranslationUnit, sourceExtensions. cbv zeta.
  generalize (FilePath.extensionLowerCase p) as ex. intro ex.
  rewrite !orb_true_iff, !String.eqb_eq. simpl.
  intuition (subst; auto).
Qed.

Example classify_upper_case : classifyPath "/src/Main.CPP" = SourceFile.
Proof. reflexivity. Qed.

Example classify_header : classifyPath "/src/util.h" = HeaderFile.
Proof. reflexivity. Qed.

Example classify_dot_in_directory :
  classifyPath "/src.c/Makefile" = HeaderFile.
Proof. reflexivity. Qed.

(** C8: a path is classified [SourceFile] exactly when its extension,
    lowered, is one of ".c", ".cc", ".cpp", ".m", ".mm"; every other path
    is a [HeaderFile], a path without extension among them; two paths
    whose extensions differ in case only are classified alike.  The
    classification is a function of the path alone: it neither takes nor
    returns the index. *)
Theorem classifyPath_spec (p : FilePath.t) :
  (classifyPath p = SourceFile <->
   In (FilePath.toLower (FilePath.extension p)) sourceExtensions) /\
  (classifyPath p = HeaderFile <->
   ~ In (FilePath.toLower (FilePath.extension p)) sourceExtensions) /\
  (FilePath.extension p = "" -> classifyPath p = HeaderFile) /\
  (forall q : FilePath.t,
      FilePath.toLower (FilePath.extension q) =
      FilePath.toLower (FilePath.extension p) ->
      classifyPath q = classifyPath p).
Proof.
  pose proof (isTranslationUnit_iff p) as Hp.
  unfold FilePath.extensionLowerCase in Hp.
  assert (Hs : classifyPath p = SourceFile <-> isTranslationUnit p = true).
  { unfold classifyPath. destruct (isTranslationUnit p); split; congruence. }
  assert (Hh : classifyPath p = HeaderFile <-> isTranslationUnit p <> true).
  { unfold classifyPath. destruct (isTranslationUnit p); split; congruence. }
  repeat split.
  - intro. apply Hp, Hs. assumption.
  - intro. apply Hs, Hp. assumption.
  - intros Hc Hin. apply Hh in Hc. apply Hc, Hp, Hin.
  - intro Hn. apply Hh. intro Ht. apply Hn, Hp, Ht.
  - intro He. apply Hh. intro Ht. apply Hp in Ht. rewrite He in Ht.
    simpl in Ht. intuition discriminate.
  - intros q Hq. unfold classifyPath, isTranslationUnit.
    unfold FilePath.extensionLowerCase. rewrite Hq. reflexivity.
Qed.

(** ** The steps of the index, computed *)

Ltac fields := cbn [index_ verbose_ translationUnits_ engine calls errorLog].

Section Steps.

Context {E : Type} `{LibClang E}.
Variable env : Environment.

Lemma removeTranslationUnit_run (filename : string) (s : SourceIndex E) :
  removeTranslationUnit filename s = Some (tt, afterRemove filename s).
Proof.
  unfold removeTranslationUnit, afterRemove, bind, getUnits.
  destruct (TranslationUnits.find filename (translationUnits_ s));
    reflexivity.
Qed.

Lemma afterRemove_find (filename : string) (s : SourceIndex E) :
  TranslationUnits.find filename (translationUnits_ (afterRemove filename s))
  = None.
Proof.
  unfold afterRemove.
  destruct (TranslationUnits.find filename (translationUnits_ s)) eqn:Hf.
  - fields. apply TUFacts.remove_eq_o. reflexivity.
  - assumption.
Qed.

Lemma afterRemove_find_other (filename k : string) (s : SourceIndex E) :
  k <> filename ->
  TranslationUnits.find k (translationUnits_ (afterRemove filename s))
  = TranslationUnits.find k (translationUnits_ s).
Proof.
  intro Hk. unfold afterRemove.
  destruct (TranslationUnits.find filename (translationUnits_ s)).
  - fields. apply TUFacts.remove_neq_o. congruence.
  - reflexivity.
Qed.


Lemma afterRemove_index (filename : string) (s : SourceIndex E) :
  index_ (afterRemove filename s) = index_ s.
Proof.
  unfold afterRemove.
  destruct (TranslationUnits.find filename (translationUnits_ s));
    reflexivity.
Qed.

Lemma afterRemove_absent (filename : string) (s : SourceIndex E) :
  TranslationUnits.find filename (translationUnits_ s) = None ->
  afterRemove filename s = s.
Proof. unfold afterRemove. intros ->. reflexivity. Qed.

Lemma fullRebuild_run (p : FilePath.t) (args : list string) (writeTime : Z)
      (s : SourceIndex E) :
  let filename := FilePath.absolutePath p in
  let s1 := afterRemove filename s in
  let args' := parseArgs s1 args in
  fullRebuild env p args writeTime s =
  Some (afterParse filename args' writeTime (unsavedFiles env)
          (fst (parseTranslationUnit (index_ s1) filename args'
                  (unsavedFiles env) (engine s1)))
          (snd (parseTranslationUnit (index_ s1) filename args'
                  (unsavedFiles env) (engine s1)))
          s1).
Proof.
  intros filename s1 args'.
  unfold fullRebuild, bind. rewrite removeTranslationUnit_run.
  fold filename. fold s1. unfold getVerbose, getIndex, clangParse.
  fold (parseArgs s1 args). fold args'.
  destruct (parseTranslationUnit (index_ s1) filename args'
              (unsavedFiles env) (engine s1)) as [h e2].
  unfold afterParse. cbn [fst snd].
  destruct (negb (h =? NULL)%N); reflexivity.
Qed.

Lemma fullRebuild_present (p : FilePath.t) (args : list string)
      (writeTime : Z) (s : SourceIndex E) (stored : StoredTranslationUnit) :
  TranslationUnits.find (FilePath.absolutePath p) (translationUnits_ s)
    = Some stored ->
  let filename := FilePath.absolutePath p in
  let args' := parseArgs s args in
  let e1 := disposeTranslationUnit (tu stored) (engine s) in
  fullRebuild env p args writeTime s =
  Some (afterParse filename args' writeTime (unsavedFiles env)
          (fst (parseTranslationUnit (index_ s) filename args'
                  (unsavedFiles env) e1))
          (snd (parseTranslationUnit (index_ s) filename args'
                  (unsavedFiles env) e1))
          (mkSourceIndex (index_ s) (verbose_ s)
             (TranslationUnits.remove filename (translationUnits_ s))
             e1 (calls s ++ [DisposeCall (tu stored)]) (errorLog s))).
Proof.
  intros Hf filename args' e1. rewrite fullRebuild_run. cbv zeta.
  unfold afterRemove. rewrite Hf. reflexivity.
Qed.

Lemma fullRebuild_absent (p : FilePath.t) (args : list string)
      (writeTime : Z) (s : SourceIndex E) :
  TranslationUnits.find (FilePath.absolutePath p) (translationUnits_ s)
    = None ->
  let filename := FilePath.absolutePath p in
  let args' := parseArgs s args in
  fullRebuild env p args writeTime s =
  Some (afterParse filename args' writeTime (unsavedFiles env)
          (fst (parseTranslationUnit (index_ s) filename args'
                  (unsavedFiles env) (engine s)))
          (snd (parseTranslationUnit (index_ s) filename args'
                  (unsavedFiles env) (engine s)))
          s).
Proof.
  intros Hf filename args'. rewrite fullRebuild_run. cbv zeta.
  rewrite afterRemove_absent by assumption. reflexivity.
Qed.

(** On a translation unit the fuel plays no part. *)
Lemma getTranslationUnit_source (fuel : nat) (p : FilePath.t) :
  isTranslationUnit p = true ->
  getTranslationUnit env (S fuel) p = getSourceTranslationUnit env p.
Proof. intro Hp. simpl. rewrite Hp. reflexivity. Qed.

Lemma getSourceTranslationUnit_run (p : FilePath.t) (s : SourceIndex E) :
  let args := compileArgsForTranslationUnit env p in
  let writeTime := fileLastWriteTime env p in
  let filename := FilePath.absolutePath p in
  getSourceTranslationUnit env p s =
  match TranslationUnits.find filename (translationUnits_ s) with
  | Some stored =>
      if list_eq_dec string_dec args (compileArgs stored) then
        if (writeTime =? lastWriteTime stored)%Z then
          Some ({| filename_ := filename; cxTU_ := tu stored |}, s)
        else if (fst (reparseTranslationUnit (tu stored) (unsavedFiles env)
                        (engine s)) =? 0)%Z then
          Some ({| filename_ := filename; cxTU_ := tu stored |},
                stored_as (TranslationUnits.add filename
                             (touched stored writeTime)
                             (translationUnits_ s))
                          (afterReparse env stored s))
        else
          fullRebuild env p args writeTime
            (logged ("Error re-parsing translation unit " ++ filename)
                    (afterReparse env stored s))
      else fullRebuild env p args writeTime s
  | None => fullRebuild env p args writeTime s
  end.
Proof.
  intros args writeTime filename.
  unfold getSourceTranslationUnit, bind, getUnits.
  fold args. fold writeTime. fold filename.
  destruct (TranslationUnits.find filename (translationUnits_ s))
    as [stored|]; [|reflexivity].
  destruct (list_eq_dec string_dec args (compileArgs stored));
    [|reflexivity].
  destruct (writeTime =? lastWriteTime stored)%Z; [reflexivity|].
  unfold clangReparse, afterReparse.
  destruct (reparseTranslationUnit (tu stored) (unsavedFiles env) (engine s))
    as [r e1].
  cbn [fst snd].
  destruct (r =? 0)%Z; reflexivity.
Qed.

(** [scanStored] only asks questions. *)
Lemma scanStored_store (p : FilePath.t)
      (l : list (string * StoredTranslationUnit)) (s : SourceIndex E) :
  exists r cs,
    scanStored p l s =
    Some (r, mkSourceIndex (index_ s) (verbose_ s) (translationUnits_ s)
               (engine s) (calls s ++ cs) (errorLog s)).
Proof.
  revert s. induction l as [|[k st] l IH]; intro s.
  - exists None, []. simpl. unfold ret. rewrite app_nil_r.
    destruct s; reflexivity.
  - simpl. unfold bind, includesFile. cbn [cxTU_].
    destruct (getFile (tu st) (FilePath.absolutePath p) (engine s)).
    + eexists. eexists. reflexivity.
    + match goal with |- context [scanStored p l ?s1] =>
        destruct (IH s1) as (r & cs & ->) end.
      fields. exists r. eexists. rewrite <- app_assoc. reflexivity.
Qed.

Lemma disposeAll_run (l : list (string * StoredTranslationUnit))
      (s : SourceIndex E) :
  disposeAll l s =
  Some (tt, mkSourceIndex (index_ s) (verbose_ s) (translationUnits_ s)
              (disposedEngine l (engine s))
              (calls s ++ disposeCalls l) (errorLog s)).
Proof.
  revert s. induction l as [|[k st] l IH]; intro s.
  - simpl. unfold ret. rewrite app_nil_r. destruct s; reflexivity.
  - simpl. unfold bind, clangDispose. rewrite IH.
    fields. cbn [snd]. rewrite <- app_assoc. reflexivity.
Qed.

Lemma removeAllTranslationUnits_run (s : SourceIndex E) :
  removeAllTranslationUnits s =
  Some (tt, mkSourceIndex (index_ s) (verbose_ s)
              (TranslationUnits.empty StoredTranslationUnit)
              (disposedEngine (TranslationUnits.elements (translationUnits_ s))
                              (engine s))
              (calls s ++
               disposeCalls (TranslationUnits.elements (translationUnits_ s)))
              (errorLog s)).
Proof.
  unfold removeAllTranslationUnits, bind, getUnits.
  rewrite disposeAll_run. reflexivity.
Qed.

End Steps.

(** ** Invariants of the map *)

Lemma find_elements (m : TranslationUnitsMap) (k : string)
      (st : StoredTranslationUnit) :
  TranslationUnits.find k m = Some st <->
  In (k, st) (TranslationUnits.elements m).
Proof.
  rewrite <- TUFacts.find_mapsto_iff, TUFacts.elements_mapsto_iff.
  rewrite InA_alt. split.
  - intros ((k', st') & [Hk Hs] & Hin). simpl in Hk, Hs. subst. exact Hin.
  - intro Hin. exists (k, st). split; [split; reflexivity | exact Hin].
Qed.

Lemma paths_NoDup (m : TranslationUnitsMap) : NoDup (paths m).
Proof.
  unfold paths. pose proof (TranslationUnits.elements_3w m) as Hnd.
  induction Hnd as [|[k st] l Hnotin _ IH]; simpl; constructor.
  - intro Hin. apply Hnotin. apply in_map_iff in Hin.
    destruct Hin as ([k' st'] & Hk & Hin). simpl in Hk. subst k'.
    apply InA_alt. exists (k, st'). split; [reflexivity | exact Hin].
  - exact IH.
Qed.

Lemma handlesNonNull_find (m : TranslationUnitsMap) :
  handlesNonNull m = true <->
  forall k st, TranslationUnits.find k m = Some st -> tu st <> NULL.
Proof.
  unfold handlesNonNull. rewrite forallb_forall. split.
  - intros Hall k st Hf. apply find_elements in Hf.
    apply Hall in Hf. simpl in Hf. apply negb_true_iff in Hf.
    apply N.eqb_neq. exact Hf.
  - intros Hall [k st] Hin. simpl. apply negb_true_iff, N.eqb_neq.
    apply (Hall k). apply find_elements. exact Hin.
Qed.


Section Preservation.

Context {E : Type} `{LibClang E}.
Variable env : Environment.

(** A property of the entries that may depend on the state of libclang,
    kept by the calls that the requests make, true of a fresh parse result
    stored under a translation unit's path, and blind to the write
    time. *)
Variable P : string -> E -> StoredTranslationUnit -> Prop.

Hypothesis P_parse : forall i f a u e k st,
  P k e st -> P k (snd (parseTranslationUnit i f a u e)) st.
Hypothesis P_reparse : forall h u e k st,
  P k e st -> P k (snd (reparseTranslationUnit h u e)) st.
Hypothesis P_dispose : forall h e k st,
  P k e st -> P k (disposeTranslationUnit h e) st.
Hypothesis P_new : forall i p a u e w,
  isTranslationUnit p = true ->
  fst (parseTranslationUnit i (FilePath.absolutePath p) a u e) <> NULL ->
  P (FilePath.absolutePath p)
    (snd (parseTranslationUnit i (FilePath.absolutePath p) a u e))
    {| compileArgs := a; lastWriteTime := w;
       tu := fst (parseTranslationUnit i (FilePath.absolutePath p) a u e) |}.
Hypothesis P_touch : forall k e st w,
  P k e st ->
  P k e {| compileArgs := compileArgs st; lastWriteTime := w; tu := tu st |}.

Lemma afterRemove_entries (filename : string) (s : SourceIndex E) :
  entriesSatisfy P s -> entriesSatisfy P (afterRemove filename s).
Proof.
  intros Hs k st. unfold afterRemove.
  destruct (TranslationUnits.find filename (translationUnits_ s)) as [old|];
    [|apply Hs].
  fields. intro Hf.
  destruct (string_dec filename k) as [->|Hk].
  - rewrite TUFacts.remove_eq_o in Hf by reflexivity. discriminate.
  - rewrite TUFacts.remove_neq_o in Hf by assumption.
    apply P_dispose, Hs, Hf.
Qed.

Lemma removeTranslationUnit_entries (filename : string)
      (s s' : SourceIndex E) (r : unit) :
  entriesSatisfy P s -> removeTranslationUnit filename s = Some (r, s') ->
  entriesSatisfy P s'.
Proof.
  intros Hs Hrun. rewrite removeTranslationUnit_run in Hrun.
  injection Hrun as _ <-. apply afterRemove_entries, Hs.
Qed.

Lemma fullRebuild_entries (p : FilePath.t) (args : list string) (w : Z)
      (s s' : SourceIndex E) (t : TranslationUnit) :
  isTranslationUnit p = true ->
  entriesSatisfy P s -> fullRebuild env p args w s = Some (t, s') ->
  entriesSatisfy P s'.
Proof.
  intros Hp Hs Hrun. rewrite fullRebuild_run in Hrun. cbv zeta in Hrun.
  pose proof (afterRemove_entries (FilePath.absolutePath p) s Hs) as H1.
  set (s1 := afterRemove (FilePath.absolutePath p) s) in *.
  unfold afterParse in Hrun.
  destruct (fst (parseTranslationUnit _ _ _ _ _) =? NULL)%N eqn:Hh;
    cbn [negb] in Hrun; injection Hrun as _ <-; intros k st;
    fields; intro Hf.
  - apply P_parse, H1, Hf.
  - destruct (string_dec (FilePath.absolutePath p) k) as [<-|Hk].
    + rewrite TUFacts.add_eq_o in Hf by reflexivity.
      injection Hf as <-. apply P_new; [exact Hp|].
      apply N.eqb_neq. exact Hh.
    + rewrite TUFacts.add_neq_o in Hf by assumption.
      apply P_parse, H1, Hf.
Qed.

Lemma getSourceTranslationUnit_entries (p : FilePath.t)
      (s s' : SourceIndex E) (t : TranslationUnit) :
  isTranslationUnit p = true ->
  entriesSatisfy P s -> getSourceTranslationUnit env p s = Some (t, s') ->
  entriesSatisfy P s'.
Proof.
  intros Hp Hs Hrun. rewrite getSourceTranslationUnit_run in Hrun.
  cbv zeta in Hrun.
  destruct (TranslationUnits.find (FilePath.absolutePath p)
              (translationUnits_ s)) as [stored|] eqn:Hf;
    [|eapply fullRebuild_entries; eassumption].
  destruct (list_eq_dec string_dec _ _);
    [|eapply fullRebuild_entries; eassumption].
  destruct (_ =? lastWriteTime stored)%Z.
  { injection Hrun as _ <-. exact Hs. }
  assert (Hre : entriesSatisfy P (afterReparse env stored s)).
  { intros k st Hk. apply P_reparse, Hs, Hk. }
  destruct (_ =? 0)%Z.
  - injection Hrun as _ <-. intros k st.
    unfold stored_as. fields. intro Hk.
    destruct (string_dec (FilePath.absolutePath p) k) as [<-|Hne].
    + rewrite TUFacts.add_eq_o in Hk by reflexivity. injection Hk as <-.
      apply P_touch, P_reparse, Hs, Hf.
    + rewrite TUFacts.add_neq_o in Hk by assumption.
      apply P_reparse, Hs, Hk.
  - eapply fullRebuild_entries; [exact Hp | | exact Hrun].
    exact Hre.
Qed.

Lemma searchSources_entries
      (get : FilePath.t -> M E TranslationUnit) (p : FilePath.t) :
  (forall q s s' t,
      entriesSatisfy P s -> get q s = Some (t, s') -> entriesSatisfy P s') ->
  forall srcFiles s s' t,
    entriesSatisfy P s ->
    searchSources get p srcFiles s = Some (t, s') ->
    entriesSatisfy P s'.
Proof.
  intros Hget srcFiles.
  induction srcFiles as [|src rest IH]; intros s s' t Hs Hrun.
  - injection Hrun as _ <-. exact Hs.
  - simpl in Hrun. unfold bind at 1 in Hrun.
    destruct (get src s) as [[t1 s1]|] eqn:Hg; [|discriminate].
    pose proof (Hget _ _ _ _ Hs Hg) as H1.
    destruct (empty t1); cbn [negb] in Hrun; [eapply IH; eassumption|].
    unfold bind at 1, includesFile at 1 in Hrun.
    destruct (getFile _ _ _).
    + injection Hrun as _ <-. exact H1.
    + unfold bind at 1 in Hrun. rewrite removeTranslationUnit_run in Hrun.
      eapply IH; [|exact Hrun].
      apply afterRemove_entries. exact H1.
Qed.

Lemma getTranslationUnit_entries (fuel : nat) :
  forall (p : FilePath.t) (s s' : SourceIndex E) (t : TranslationUnit),
    entriesSatisfy P s -> getTranslationUnit env fuel p s = Some (t, s') ->
    entriesSatisfy P s'.
Proof.
  induction fuel as [|fuel IH]; intros p s s' t Hs Hrun; [discriminate|].
  simpl in Hrun. destruct (isTranslationUnit p) eqn:Hp; cbn [negb] in Hrun.
  - eapply getSourceTranslationUnit_entries; eassumption.
  - unfold getHeaderTranslationUnitWith, bind, getUnits in Hrun.
    destruct (scanStored_store p
                (TranslationUnits.elements (translationUnits_ s)) s)
      as (r & cs & Hscan).
    rewrite Hscan in Hrun. destruct r as [t1|].
    + injection Hrun as _ <-. exact Hs.
    + eapply (searchSources_entries (getTranslationUnit env fuel) p IH);
        [|exact Hrun].
      exact Hs.
Qed.

End Preservation.

Section NonNull.

Context {E : Type} `{LibClang E}.
Variable env : Environment.

Lemma nonNull_entries (s : SourceIndex E) :
  handlesNonNull (translationUnits_ s) = true <->
  entriesSatisfy (fun _ _ st => tu st <> NULL) s.
Proof. apply handlesNonNull_find. Qed.

Lemma getTranslationUnit_nonNull (fuel : nat) (p : FilePath.t)
      (s s' : SourceIndex E) (t : TranslationUnit) :
  handlesNonNull (translationUnits_ s) = true ->
  getTranslationUnit env fuel p s = Some (t, s') ->
  handlesNonNull (translationUnits_ s') = true.
Proof.
  rewrite !nonNull_entries. intros Hs Hrun.
  eapply (getTranslationUnit_entries env (fun _ _ st => tu st <> NULL));
    try eassumption; auto.
Qed.

(** Only translation units get an entry. *)
Lemma getTranslationUnit_keys (fuel : nat) (p : FilePath.t)
      (s s' : SourceIndex E) (t : TranslationUnit) :
  entriesSatisfy (fun k _ _ => isTranslationUnit k = true) s ->
  getTranslationUnit env fuel p s = Some (t, s') ->
  entriesSatisfy (fun k _ _ => isTranslationUnit k = true) s'.
Proof.
  intros Hs Hrun.
  eapply (getTranslationUnit_entries env
            (fun k _ _ => isTranslationUnit k = true));
    try eassumption; auto.
Qed.

End NonNull.

(** The handles of the stored units stay among those the library has
    returned. *)
Lemma getTranslationUnit_issued {E : Type} `{FreshHandles E}
      (env : Environment) (fuel : nat) (p : FilePath.t)
      (s s' : SourceIndex E) (t : TranslationUnit) :
  entriesSatisfy (fun _ e st => issued e (tu st)) s ->
  getTranslationUnit env fuel p s = Some (t, s') ->
  entriesSatisfy (fun _ e st => issued e (tu st)) s'.
Proof.
  intros Hs Hrun.
  eapply (getTranslationUnit_entries env (fun _ e st => issued e (tu st)));
    try eassumption; cbn [tu].
  - intros. apply parse_keeps. assumption.
  - intros. apply reparse_keeps. assumption.
  - intros. apply dispose_keeps. assumption.
  - intros. apply parse_issued. assumption.
  - auto.
Qed.

(** ** Requests for translation units *)

Section Requests.

Context {E : Type} `{LibClang E}.
Variable env : Environment.

(** What a translation unit's request returns, against what it leaves in
    the map. *)
Lemma getTranslationUnit_result (fuel : nat) (p : FilePath.t)
      (s : SourceIndex E) :
  isTranslationUnit p = true ->
  handlesNonNull (translationUnits_ s) = true ->
  exists t s',
    getTranslationUnit env (S fuel) p s = Some (t, s') /\
    (empty t = false ->
     filename_ t = FilePath.absolutePath p /\
     exists st,
       TranslationUnits.find (FilePath.absolutePath p) (translationUnits_ s')
         = Some st /\ tu st = cxTU_ t) /\
    (empty t = true ->
     t = emptyTranslationUnit /\
     TranslationUnits.find (FilePath.absolutePath p) (translationUnits_ s')
       = None /\
     exists cs a,
       calls s' =
         (calls s ++ cs ++
          [ParseCall (index_ s) (FilePath.absolutePath p) a
             (unsavedFiles env)])%list /\
       forall h f, ~ In (GetFileCall h f) cs).
Proof.
  intros Hp Hnn. rewrite getTranslationUnit_source by assumption.
  assert (Hfull : forall args w s0 pre,
             calls s0 = (calls s ++ pre)%list ->
             index_ s0 = index_ s ->
             (forall h f, ~ In (GetFileCall h f) pre) ->
             exists t s',
               fullRebuild env p args w s0 = Some (t, s') /\
               (empty t = false ->
                filename_ t = FilePath.absolutePath p /\
                exists st,
                  TranslationUnits.find (FilePath.absolutePath p)
                    (translationUnits_ s') = Some st /\ tu st = cxTU_ t) /\
               (empty t = true ->
                t = emptyTranslationUnit /\
                TranslationUnits.find (FilePath.absolutePath p)
                  (translationUnits_ s') = None /\
                exists cs a,
                  calls s' =
                    (calls s ++ cs ++
                     [ParseCall (index_ s) (FilePath.absolutePath p) a
                        (unsavedFiles env)])%list /\
                  forall h f, ~ In (GetFileCall h f) cs)).
  { intros args w s0 pre Hpre Hidx Hno. rewrite fullRebuild_run. cbv zeta.
    pose proof (afterRemove_find (FilePath.absolutePath p) s0) as Hrm.
    pose proof (afterRemove_index (FilePath.absolutePath p) s0) as Hi.
    rewrite Hidx in Hi.
    assert (Hc : exists cs, calls (afterRemove (FilePath.absolutePath p) s0)
                            = (calls s ++ cs)%list /\
                            forall h f, ~ In (GetFileCall h f) cs).
    { unfold afterRemove.
      destruct (TranslationUnits.find _ (translationUnits_ s0)) as [old|].
      - fields. rewrite Hpre, <- app_assoc. eexists. split; [reflexivity|].
        intros h f Hin. apply in_app_or in Hin. destruct Hin as [Hin|Hin].
        + exact (Hno _ _ Hin).
        + simpl in Hin. destruct Hin as [Hin|[]]. discriminate.
      - exists pre. split; assumption. }
    destruct Hc as (cs & Hcs & Hnocs).
    set (s1 := afterRemove (FilePath.absolutePath p) s0) in *.
    unfold afterParse.
    destruct (fst (parseTranslationUnit _ _ _ _ _) =? NULL)%N eqn:Hh;
      cbn [negb]; (eexists; eexists; split; [reflexivity|]).
    - split; [intro He; discriminate He|]. intros _.
      split; [reflexivity|]. fields.
      split; [exact Hrm|]. exists cs. eexists. split; [|exact Hnocs].
      rewrite Hcs, Hi, <- app_assoc. reflexivity.
    - split.
      + intros _. split; [reflexivity|]. fields. cbn [cxTU_].
        eexists. split; [apply TUFacts.add_eq_o; reflexivity | reflexivity].
      + unfold empty. cbn [cxTU_]. rewrite Hh. discriminate. }
  rewrite getSourceTranslationUnit_run. cbv zeta.
  destruct (TranslationUnits.find (FilePath.absolutePath p)
              (translationUnits_ s)) as [stored|] eqn:Hf.
  2:{ apply (Hfull _ _ s []);
      [rewrite app_nil_r; reflexivity | reflexivity | intros h f []]. }
  destruct (list_eq_dec string_dec _ _).
  2:{ apply (Hfull _ _ s []);
      [rewrite app_nil_r; reflexivity | reflexivity | intros h f []]. }
  assert (Hst : (tu stored =? NULL)%N = false).
  { apply N.eqb_neq. apply (proj1 (handlesNonNull_find _) Hnn _ _ Hf). }
  destruct (_ =? lastWriteTime stored)%Z.
  { eexists. eexists. split; [reflexivity|]. unfold empty.
    cbn [cxTU_ filename_].
    rewrite Hst. split; [|discriminate]. intros _. split; [reflexivity|].
    exists stored. split; [exact Hf | reflexivity]. }
  destruct (_ =? 0)%Z.
  - eexists. eexists. split; [reflexivity|]. unfold empty.
    cbn [cxTU_ filename_]. rewrite Hst. split; [|discriminate]. intros _.
    split; [reflexivity|]. eexists. unfold stored_as.
    fields. split; [apply TUFacts.add_eq_o; reflexivity|].
    reflexivity.
  - apply (Hfull _ _ _ [ReparseCall (tu stored) (unsavedFiles env)]).
    + reflexivity.
    + reflexivity.
    + intros h f [Hin|[]]. discriminate.
Qed.

(** The first request for a translation unit: one parse, and an entry
    exactly when the parse succeeded. *)
Lemma getTranslationUnit_first_request
      (fuel : nat) (p : FilePath.t) (s : SourceIndex E) :
  isTranslationUnit p = true ->
  TranslationUnits.find (FilePath.absolutePath p) (translationUnits_ s)
    = None ->
  let filename := FilePath.absolutePath p in
  let args := parseArgs s (compileArgsForTranslationUnit env p) in
  let unsaved := unsavedFiles env in
  let h := fst (parseTranslationUnit (index_ s) filename args unsaved
                  (engine s)) in
  let e := snd (parseTranslationUnit (index_ s) filename args unsaved
                  (engine s)) in
  exists t s',
    getTranslationUnit env (S fuel) p s = Some (t, s') /\
    calls s' = (calls s ++ [ParseCall (index_ s) filename args unsaved])%list /\
    engine s' = e /\
    t = (if (h =? NULL)%N then emptyTranslationUnit
         else {| filename_ := filename; cxTU_ := h |}) /\
    TranslationUnits.find filename (translationUnits_ s') =
      (if (h =? NULL)%N then None
       else Some {| compileArgs := args;
                    lastWriteTime := fileLastWriteTime env p;
                    tu := h |}).
Proof.
  intros Hp Hf filename args unsaved h e.
  rewrite getTranslationUnit_source by assumption.
  rewrite getSourceTranslationUnit_run. cbv zeta. rewrite Hf.
  rewrite fullRebuild_absent by exact Hf. cbv zeta.
  fold filename. fold args. fold unsaved. fold h. fold e.
  unfold afterParse. destruct (h =? NULL)%N; cbn [negb];
    (eexists; eexists; split; [reflexivity|]; fields;
     repeat split; try reflexivity).
  - exact Hf.
  - apply TUFacts.add_eq_o. reflexivity.
Qed.

(** With [verbose_] at 2 or more the stored arguments carry the appended
    "-v", which the compilation database never gives, so that the unit
    stored by a first request is not taken as it is by the next one. *)
Lemma verbose_request_stores_flag
      (fuel : nat) (p : FilePath.t) (s : SourceIndex E) :
  isTranslationUnit p = true ->
  TranslationUnits.find (FilePath.absolutePath p) (translationUnits_ s)
    = None ->
  (2 <= verbose_ s)%Z ->
  fst (parseTranslationUnit (index_ s) (FilePath.absolutePath p)
         (compileArgsForTranslationUnit env p ++ ["-v"])%list
         (unsavedFiles env) (engine s)) <> NULL ->
  exists t s' st,
    getTranslationUnit env (S fuel) p s = Some (t, s') /\
    TranslationUnits.find (FilePath.absolutePath p) (translationUnits_ s')
      = Some st /\
    compileArgs st = (compileArgsForTranslationUnit env p ++ ["-v"])%list /\
    compileArgsForTranslationUnit env p <> compileArgs st.
Proof.
  intros Hp Hf Hv Hh.
  destruct (getTranslationUnit_first_request fuel p s Hp Hf)
    as (t & s' & Hg & _ & _ & _ & Hfind).
  unfold parseArgs in Hfind. apply Z.leb_le in Hv. rewrite Hv in Hfind.
  apply N.eqb_neq in Hh. rewrite Hh in Hfind.
  exists t, s'. eexists. split; [exact Hg|]. split; [exact Hfind|].
  cbn [compileArgs]. split; [reflexivity|].
  intro Heq. apply (f_equal (@length string)) in Heq.
  rewrite length_app in Heq. simpl in Heq. lia.
Qed.

(** A request for a header returns, with two units of fuel, when the
    compilation database lists translation units only. *)
Lemma getTranslationUnit_header_returns
      (fuel : nat) (p : FilePath.t) (s : SourceIndex E) :
  isTranslationUnit p = false ->
  Forall (fun q => isTranslationUnit q = true) (translationUnits env) ->
  handlesNonNull (translationUnits_ s) = true ->
  exists t s', getTranslationUnit env (S (S fuel)) p s = Some (t, s').
Proof.
  intros Hp Hall Hnn.
  change (getTranslationUnit env (S (S fuel)) p)
    with (if negb (isTranslationUnit p)
          then getHeaderTranslationUnitWith env
                 (getTranslationUnit env (S fuel)) p
          else getSourceTranslationUnit env p).
  rewrite Hp. cbn [negb].
  unfold getHeaderTranslationUnitWith, bind at 1, getUnits.
  unfold bind at 1.
  destruct (scanStored_store p
              (TranslationUnits.elements (translationUnits_ s)) s)
    as (r & cs & ->).
  destruct r as [t|]; [eexists; eexists; reflexivity|].
  match goal with |- context [searchSources _ _ _ ?s0] =>
    assert (H0 : handlesNonNull (translationUnits_ s0) = true) by exact Hnn;
    generalize dependent s0 end.
  induction Hall as [|src rest Hsrc _ IH]; intros s0 H0.
  - eexists. eexists. reflexivity.
  - cbn [searchSources]. unfold bind at 1.
    destruct (getTranslationUnit_result fuel src s0 Hsrc H0)
      as (t1 & s1 & Hg & _ & _).
    rewrite Hg.
    pose proof (getTranslationUnit_nonNull env _ _ _ _ _ H0 Hg) as H1.
    destruct (empty t1); cbn [negb]; [apply IH; exact H1|].
    unfold bind at 1, includesFile at 1.
    destruct (getFile _ _ _); [eexists; eexists; reflexivity|].
    unfold bind at 1. rewrite removeTranslationUnit_run.
    apply IH. apply nonNull_entries.
    apply afterRemove_entries; [auto|]. apply nonNull_entries. exact H1.
Qed.

(** ** The staleness policy *)

(** C2: a stored translation unit whose compile arguments and last write
    time are the current ones is returned as it is, with its file name
    and its handle, and the index, the calls made to libclang among it,
    is left as it was. *)
Theorem getTranslationUnit_reuse
        (fuel : nat) (p : FilePath.t) (s : SourceIndex E)
        (stored : StoredTranslationUnit) :
  isTranslationUnit p = true ->
  TranslationUnits.find (FilePath.absolutePath p) (translationUnits_ s)
    = Some stored ->
  compileArgsForTranslationUnit env p = compileArgs stored ->
  fileLastWriteTime env p = lastWriteTime stored ->
  getTranslationUnit env (S fuel) p s =
  Some ({| filename_ := FilePath.absolutePath p; cxTU_ := tu stored |}, s).
Proof.
  intros Hp Hf Ha Ht.
  rewrite getTranslationUnit_source by assumption.
  rewrite getSourceTranslationUnit_run. cbv zeta. rewrite Hf.
  destruct (list_eq_dec string_dec _ _) as [_|Hn]; [|contradiction].
  rewrite Ht, Z.eqb_refl. reflexivity.
Qed.

(** C3: a stored translation unit whose compile arguments are the
    current ones and whose last write time is not is reparsed once, on
    its own handle and with the current unsaved files.  When the reparse
    answers 0 the stored write time becomes the current one and the same
    handle is returned; otherwise the failure is logged and the result
    is that of the full rebuild, whose calls are one dispose and one
    parse. *)
Theorem getTranslationUnit_reparse
        (fuel : nat) (p : FilePath.t) (s : SourceIndex E)
        (stored : StoredTranslationUnit) :
  isTranslationUnit p = true ->
  TranslationUnits.find (FilePath.absolutePath p) (translationUnits_ s)
    = Some stored ->
  compileArgsForTranslationUnit env p = compileArgs stored ->
  fileLastWriteTime env p <> lastWriteTime stored ->
  let filename := FilePath.absolutePath p in
  let args := compileArgsForTranslationUnit env p in
  let writeTime := fileLastWriteTime env p in
  let unsaved := unsavedFiles env in
  let r := fst (reparseTranslationUnit (tu stored) unsaved (engine s)) in
  let e1 := snd (reparseTranslationUnit (tu stored) unsaved (engine s)) in
  let msg := "Error re-parsing translation unit " ++ filename in
  exists t s',
    getTranslationUnit env (S fuel) p s = Some (t, s') /\
    (r = 0%Z ->
     t = {| filename_ := filename; cxTU_ := tu stored |} /\
     translationUnits_ s' =
       TranslationUnits.add filename
         {| compileArgs := compileArgs stored; lastWriteTime := writeTime;
            tu := tu stored |} (translationUnits_ s) /\
     engine s' = e1 /\
     calls s' = (calls s ++ [ReparseCall (tu stored) unsaved])%list /\
     errorLog s' = errorLog s) /\
    (r <> 0%Z ->
     fullRebuild env p args writeTime
       (mkSourceIndex (index_ s) (verbose_ s) (translationUnits_ s) e1
          (calls s ++ [ReparseCall (tu stored) unsaved])
          (errorLog s ++ [msg])) = Some (t, s') /\
     calls s' =
       (calls s ++ [ReparseCall (tu stored) unsaved;
                    DisposeCall (tu stored);
                    ParseCall (index_ s) filename (parseArgs s args)
                      unsaved])%list /\
     exists rest, errorLog s' = (errorLog s ++ msg :: rest)%list).
Proof.
  intros Hp Hf Ha Ht filename args writeTime unsaved r e1 msg.
  rewrite getTranslationUnit_source by assumption.
  rewrite getSourceTranslationUnit_run. cbv zeta.
  rewrite Hf. fold filename.
  destruct (list_eq_dec string_dec _ _) as [_|Hn]; [|contradiction].
  apply Z.eqb_neq in Ht. rewrite Ht.
  fold unsaved. fold r. fold writeTime. fold args.
  destruct (r =? 0)%Z eqn:Hr.
  - apply Z.eqb_eq in Hr. eexists. eexists. split; [reflexivity|].
    split; [|intro; contradiction].
    intros _. unfold stored_as, afterReparse, touched. fields.
    repeat split; reflexivity.
  - apply Z.eqb_neq in Hr.
    unfold logged, afterReparse. fields.
    fold unsaved. fold e1. fold msg.
    rewrite (fullRebuild_present env p args writeTime _ stored)
      by exact Hf.
    cbv zeta. fields. fold filename. fold unsaved.
    change (parseArgs _ args) with (parseArgs s args).
    destruct (parseTranslationUnit (index_ s) filename (parseArgs s args)
                unsaved (disposeTranslationUnit (tu stored) e1)) as [h e2].
    unfold afterParse. fields. cbn [fst snd].
    destruct (h =? NULL)%N; cbn [negb];
      (eexists; eexists; split; [reflexivity|];
       split; [intro; contradiction|]; intros _;
       split; [reflexivity|]; fields).
    + split; [rewrite <- !app_assoc; reflexivity|].
      exists ["Error parsing translation unit " ++ filename].
      rewrite <- app_assoc. reflexivity.
    + split; [rewrite <- !app_assoc; reflexivity|].
      exists []. reflexivity.
Qed.

End Requests.

Section Rebuild.

Context {E : Type} {clang : LibClang E}.
Variable env : Environment.

(** C4, as the code has it: a stored translation unit whose compile
    arguments differ from the current ones is rebuilt whatever the write
    times are: its handle is disposed, its entry removed and the file
    parsed, these being the only two calls.  When the parse succeeds the
    new entry holds the handle that the parse returned; it is not the old
    handle for a library that never returns a handle twice, and nothing
    else makes it differ.  When the parse fails the path is left without
    an entry. *)
Theorem getTranslationUnit_rebuild
        (fuel : nat) (p : FilePath.t) (s : SourceIndex E)
        (stored : StoredTranslationUnit) :
  isTranslationUnit p = true ->
  TranslationUnits.find (FilePath.absolutePath p) (translationUnits_ s)
    = Some stored ->
  compileArgsForTranslationUnit env p <> compileArgs stored ->
  let filename := FilePath.absolutePath p in
  let args := parseArgs s (compileArgsForTranslationUnit env p) in
  let unsaved := unsavedFiles env in
  let e1 := disposeTranslationUnit (tu stored) (engine s) in
  let h := fst (parseTranslationUnit (index_ s) filename args unsaved e1) in
  let e2 := snd (parseTranslationUnit (index_ s) filename args unsaved e1) in
  exists t s',
    getTranslationUnit env (S fuel) p s = Some (t, s') /\
    calls s' =
      (calls s ++ [DisposeCall (tu stored);
                   ParseCall (index_ s) filename args unsaved])%list /\
    engine s' = e2 /\
    errorLog s' =
      (errorLog s ++
       if (h =? NULL)%N
       then [("Error parsing translation unit " ++ filename)%string]
       else [])%list /\
    (h <> NULL ->
     t = {| filename_ := filename; cxTU_ := h |} /\
     translationUnits_ s' =
       TranslationUnits.add filename
         {| compileArgs := args;
            lastWriteTime := fileLastWriteTime env p;
            tu := h |}
         (TranslationUnits.remove filename (translationUnits_ s)) /\
     TranslationUnits.find filename (translationUnits_ s') =
       Some {| compileArgs := args;
               lastWriteTime := fileLastWriteTime env p;
               tu := h |} /\
     forall fresh : @FreshHandles E clang,
       @issued E clang fresh (engine s) (tu stored) -> h <> tu stored) /\
    (h = NULL ->
     t = emptyTranslationUnit /\
     translationUnits_ s' =
       TranslationUnits.remove filename (translationUnits_ s) /\
     TranslationUnits.find filename (translationUnits_ s') = None).
Proof.
  intros Hp Hf Ha filename args unsaved e1 h e2.
  rewrite getTranslationUnit_source by assumption.
  rewrite getSourceTranslationUnit_run. cbv zeta. rewrite Hf.
  destruct (list_eq_dec string_dec _ _) as [Heq|_]; [contradiction|].
  rewrite (fullRebuild_present env p _ _ s stored) by exact Hf.
  cbv zeta. fold filename. fold args. fold unsaved. fold e1. fold h. fold e2.
  unfold afterParse.
  destruct (h =? NULL)%N eqn:Hh; cbn [negb];
    (eexists; eexists; split; [reflexivity|]; fields;
     split; [rewrite <- app_assoc; reflexivity|];
     split; [reflexivity|];
     split; [try reflexivity; symmetry; apply app_nil_r|]).
  - apply N.eqb_eq in Hh. split; [intro; contradiction|]. intros _.
    split; [reflexivity|]. split; [reflexivity|].
    apply TUFacts.remove_eq_o. reflexivity.
  - apply N.eqb_neq in Hh. split; [|intro; contradiction]. intros _.
    split; [reflexivity|]. split; [reflexivity|].
    split; [apply TUFacts.add_eq_o; reflexivity|].
    intros fresh Hi Heq.
    apply (@parse_fresh E clang fresh (index_ s) filename args unsaved e1).
    + exact Hh.
    + fold h. rewrite Heq. apply dispose_keeps. exact Hi.
Qed.

End Rebuild.

(** ** Priming *)

Section Priming.

Context {E : Type} `{LibClang E}.
Variable env : Environment.

(** C7: [primeTranslationUnit] on a path that has an entry, and
    [reprimeTranslationUnit] on a path that has none, leave the index as
    it is: no call to libclang, no entry added or changed. *)
Theorem prime_present_reprime_absent
        (fuel : nat) (p : FilePath.t) (s : SourceIndex E) :
  (TranslationUnits.find (FilePath.absolutePath p) (translationUnits_ s)
     <> None ->
   primeTranslationUnit env fuel p s = Some (tt, s)) /\
  (TranslationUnits.find (FilePath.absolutePath p) (translationUnits_ s)
     = None ->
   reprimeTranslationUnit env fuel p s = Some (tt, s)).
Proof.
  unfold primeTranslationUnit, reprimeTranslationUnit, bind, getUnits.
  destruct (TranslationUnits.find (FilePath.absolutePath p)
              (translationUnits_ s)); split; intro Hf;
    try reflexivity; try discriminate; exfalso; apply Hf; reflexivity.
Qed.

(** C6, as the code has it: on a path that has an entry,
    [reprimeTranslationUnit] runs [getTranslationUnit] and drops its
    result, so that the index is left as [getTranslationUnit] leaves it.
    For a translation unit this is the staleness policy: the index is
    left as it is, with no call to libclang, when the compile arguments
    and the write time are the current ones; the stored handle is
    reparsed, and the stored write time updated when the reparse answers
    0, when only the write time changed; the unit is rebuilt, by a
    dispose and a parse, when the reparse failed or the arguments
    changed.  On a path without entry, whatever the path, nothing is
    called and the index stays as it is. *)
Theorem reprime_follows_policy
        (fuel : nat) (p : FilePath.t) (s : SourceIndex E) :
  (TranslationUnits.find (FilePath.absolutePath p) (translationUnits_ s)
     = None ->
   reprimeTranslationUnit env fuel p s = Some (tt, s)) /\
  (forall stored,
      TranslationUnits.find (FilePath.absolutePath p) (translationUnits_ s)
        = Some stored ->
      reprimeTranslationUnit env fuel p s =
        match getTranslationUnit env fuel p s with
        | Some (_, s') => Some (tt, s')
        | None => None
        end /\
      (isTranslationUnit p = true ->
       let filename := FilePath.absolutePath p in
       let args := compileArgsForTranslationUnit env p in
       let writeTime := fileLastWriteTime env p in
       let unsaved := unsavedFiles env in
       let r := fst (reparseTranslationUnit (tu stored) unsaved (engine s)) in
       let e1 := snd (reparseTranslationUnit (tu stored) unsaved (engine s)) in
       let reparsed := ReparseCall (tu stored) unsaved in
       let parsed :=
         ParseCall (index_ s) filename (parseArgs s args) unsaved in
       let entry (h : CXTranslationUnit) :=
         if (h =? NULL)%N then None
         else Some {| compileArgs := parseArgs s args;
                      lastWriteTime := writeTime; tu := h |} in
       let failure (h : CXTranslationUnit) :=
         if (h =? NULL)%N
         then [("Error parsing translation unit " ++ filename)%string]
         else [] in
       let rebuilt (e : E) :=
         parseTranslationUnit (index_ s) filename (parseArgs s args) unsaved
           (disposeTranslationUnit (tu stored) e) in
       (args = compileArgs stored -> writeTime = lastWriteTime stored ->
        reprimeTranslationUnit env (S fuel) p s = Some (tt, s)) /\
       (args = compileArgs stored -> writeTime <> lastWriteTime stored ->
        r = 0%Z ->
        reprimeTranslationUnit env (S fuel) p s =
        Some (tt,
              mkSourceIndex (index_ s) (verbose_ s)
                (TranslationUnits.add filename
                   {| compileArgs := compileArgs stored;
                      lastWriteTime := writeTime; tu := tu stored |}
                   (translationUnits_ s))
                e1 (calls s ++ [reparsed]) (errorLog s))) /\
       (args = compileArgs stored -> writeTime <> lastWriteTime stored ->
        r <> 0%Z ->
        exists t s',
          fullRebuild env p args writeTime
            (mkSourceIndex (index_ s) (verbose_ s) (translationUnits_ s) e1
               (calls s ++ [reparsed])
               (errorLog s ++
                [("Error re-parsing translation unit " ++ filename)%string]))
            = Some (t, s') /\
          reprimeTranslationUnit env (S fuel) p s = Some (tt, s') /\
          calls s' =
            (calls s ++ [reparsed; DisposeCall (tu stored); parsed])%list /\
          TranslationUnits.find filename (translationUnits_ s') =
            entry (fst (rebuilt e1)) /\
          (forall k, k <> filename ->
             TranslationUnits.find k (translationUnits_ s') =
             TranslationUnits.find k (translationUnits_ s)) /\
          errorLog s' =
            (errorLog s ++
             [("Error re-parsing translation unit " ++ filename)%string] ++
             failure (fst (rebuilt e1)))%list /\
          engine s' = snd (rebuilt e1)) /\
       (args <> compileArgs stored ->
        exists t s',
          fullRebuild env p args writeTime s = Some (t, s') /\
          reprimeTranslationUnit env (S fuel) p s = Some (tt, s') /\
          calls s' = (calls s ++ [DisposeCall (tu stored); parsed])%list /\
          TranslationUnits.find filename (translationUnits_ s') =
            entry (fst (rebuilt (engine s))) /\
          (forall k, k <> filename ->
             TranslationUnits.find k (translationUnits_ s') =
             TranslationUnits.find k (translationUnits_ s)) /\
          errorLog s' = (errorLog s ++ failure (fst (rebuilt (engine s))))%list /\
          engine s' = snd (rebuilt (engine s))))).
Proof.
  split.
  { intro Hf. unfold reprimeTranslationUnit, bind, getUnits. rewrite Hf.
    reflexivity. }
  intros stored Hf.
  assert (Hre : forall n,
             reprimeTranslationUnit env n p s =
             match getTranslationUnit env n p s with
             | Some (_, s') => Some (tt, s')
             | None => None
             end).
  { intro n. unfold reprimeTranslationUnit, bind, getUnits. rewrite Hf.
    destruct (getTranslationUnit env n p s) as [[t s']|]; reflexivity. }
  split; [apply Hre|].
  intros Hp filename args writeTime unsaved r e1 reparsed parsed entry
         failure rebuilt.
  rewrite (Hre (S fuel)).
  rewrite getTranslationUnit_source by assumption.
  rewrite getSourceTranslationUnit_run. cbv zeta. rewrite Hf.
  fold filename. fold args. fold writeTime. fold unsaved. fold r.
  assert (Hrebuild : forall (s0 : SourceIndex E),
             translationUnits_ s0 = translationUnits_ s ->
             index_ s0 = index_ s -> verbose_ s0 = verbose_ s ->
             exists t s',
               fullRebuild env p args writeTime s0 = Some (t, s') /\
               match fullRebuild env p args writeTime s0 with
               | Some (_, s'') => Some (tt, s'')
               | None => None
               end = Some (tt, s') /\
               calls s' =
                 (calls s0 ++ [DisposeCall (tu stored); parsed])%list /\
               TranslationUnits.find filename (translationUnits_ s') =
                 entry (fst (rebuilt (engine s0))) /\
               (forall k, k <> filename ->
                  TranslationUnits.find k (translationUnits_ s') =
                  TranslationUnits.find k (translationUnits_ s)) /\
               errorLog s' =
                 (errorLog s0 ++ failure (fst (rebuilt (engine s0))))%list /\
               engine s' = snd (rebuilt (engine s0))).
  { intros s0 Hu Hi Hv.
    assert (Hf0 : TranslationUnits.find (FilePath.absolutePath p)
                    (translationUnits_ s0) = Some stored)
      by (rewrite Hu; exact Hf).
    rewrite (fullRebuild_present env p args writeTime s0 stored Hf0).
    cbv zeta. fold filename. fold unsaved.
    assert (Hpa : parseArgs s0 args = parseArgs s args)
      by (unfold parseArgs; rewrite Hv; reflexivity).
    rewrite Hpa, Hi. unfold afterParse, entry, failure, parsed, rebuilt.
    fields.
    destruct (fst (parseTranslationUnit _ _ _ _ _) =? NULL)%N; cbn [negb];
      (eexists; eexists; split; [reflexivity|]; split; [reflexivity|];
       fields; split; [rewrite <- app_assoc; reflexivity|]).
    - split; [apply TUFacts.remove_eq_o; reflexivity|].
      split; [|split; reflexivity].
      intros k Hk. rewrite TUFacts.remove_neq_o by congruence.
      rewrite Hu. reflexivity.
    - split; [apply TUFacts.add_eq_o; reflexivity|].
      split; [|split; [rewrite app_nil_r|]; reflexivity].
      intros k Hk. rewrite TUFacts.add_neq_o by congruence.
      rewrite TUFacts.remove_neq_o by congruence.
      rewrite Hu. reflexivity. }
  repeat match goal with |- _ /\ _ => split end.
  - intros Ha Ht.
    destruct (list_eq_dec string_dec _ _) as [_|Hn]; [|contradiction].
    rewrite Ht, Z.eqb_refl. reflexivity.
  - intros Ha Ht Hr.
    destruct (list_eq_dec string_dec _ _) as [_|Hn]; [|contradiction].
    apply Z.eqb_neq in Ht. rewrite Ht. rewrite Hr. cbn [Z.eqb].
    reflexivity.
  - intros Ha Ht Hr.
    destruct (list_eq_dec string_dec _ _) as [_|Hn]; [|contradiction].
    apply Z.eqb_neq in Ht. rewrite Ht.
    apply Z.eqb_neq in Hr. rewrite Hr.
    unfold logged, afterReparse. fields. fold unsaved. fold e1.
    fold reparsed.
    match goal with |- context [fullRebuild env p args writeTime ?s0] =>
      destruct (Hrebuild s0 eq_refl eq_refl eq_refl)
        as (t & s' & Hfull & Hdrop & Hc & Hentry & Hrest & Hlog & Heng)
    end.
    exists t, s'. split; [exact Hfull|]. split; [exact Hdrop|].
    split; [rewrite Hc; fields; rewrite <- app_assoc; reflexivity|].
    split; [exact Hentry|]. split; [exact Hrest|].
    split; [|exact Heng].
    rewrite Hlog. fields. rewrite <- app_assoc. reflexivity.
  - intros Ha.
    destruct (list_eq_dec string_dec _ _) as [Heq|_]; [contradiction|].
    destruct (Hrebuild s eq_refl eq_refl eq_refl)
      as (t & s' & Hfull & Hdrop & Hc & Hentry & Hrest & Hlog & Heng).
    exists t, s'. repeat split; assumption.
Qed.

End Priming.

(** ** The invariants of the map *)

Section Invariants.

Context {E : Type} `{LibClang E}.
Variable env : Environment.


End Invariants.

(** ** Removing everything *)

Section RemoveAll.

Context {E : Type} `{LibClang E}.
Variable env : Environment.

(** C9: [removeAllTranslationUnits] disposes the handle of every stored
    unit and leaves the map empty; on an empty map it calls nothing and
    changes nothing, so that a second call is idle; and a request for a
    translation unit after it is served by one parse, with the result, the
    calls and the entry of a first request made to any index that has no
    entry for the path. *)
Theorem removeAll_then_request
        (fuel : nat) (p : FilePath.t) (s : SourceIndex E) :
  isTranslationUnit p = true ->
  exists s1,
    removeAllTranslationUnits s = Some (tt, s1) /\
    translationUnits_ s1 = TranslationUnits.empty StoredTranslationUnit /\
    calls s1 =
      (calls s ++
       disposeCalls (TranslationUnits.elements (translationUnits_ s)))%list /\
    (forall k st,
        TranslationUnits.find k (translationUnits_ s) = Some st ->
        In (DisposeCall (tu st))
           (disposeCalls (TranslationUnits.elements (translationUnits_ s)))) /\
    removeAllTranslationUnits s1 = Some (tt, s1) /\
    (forall s0 : SourceIndex E,
        TranslationUnits.elements (translationUnits_ s0) = [] ->
        exists s0',
          removeAllTranslationUnits s0 = Some (tt, s0') /\
          TranslationUnits.elements (translationUnits_ s0') = [] /\
          engine s0' = engine s0 /\ calls s0' = calls s0 /\
          errorLog s0' = errorLog s0) /\
    let filename := FilePath.absolutePath p in
    let args := parseArgs s (compileArgsForTranslationUnit env p) in
    let unsaved := unsavedFiles env in
    exists t s2,
      getTranslationUnit env (S fuel) p s1 = Some (t, s2) /\
      calls s2 =
        (calls s1 ++ [ParseCall (index_ s) filename args unsaved])%list /\
      (forall s0 : SourceIndex E,
          TranslationUnits.find filename (translationUnits_ s0) = None ->
          index_ s0 = index_ s1 -> verbose_ s0 = verbose_ s1 ->
          engine s0 = engine s1 ->
          exists s3,
            getTranslationUnit env (S fuel) p s0 = Some (t, s3) /\
            calls s3 =
              (calls s0 ++ [ParseCall (index_ s) filename args unsaved])%list /\
            engine s3 = engine s2 /\
            TranslationUnits.find filename (translationUnits_ s3) =
            TranslationUnits.find filename (translationUnits_ s2)).
Proof.
  intro Hp. eexists. split; [apply removeAllTranslationUnits_run|].
  fields.
  split; [reflexivity|]. split; [reflexivity|]. split.
  { intros k st Hf. apply find_elements in Hf. unfold disposeCalls.
    apply (in_map (fun kv => DisposeCall (tu (snd kv))) _ _ Hf). }
  split.
  { rewrite removeAllTranslationUnits_run. fields.
    rewrite TUProps.elements_empty.
    cbn [disposedEngine disposeCalls fold_left map].
    rewrite app_nil_r. reflexivity. }
  split.
  { intros s0 H0. eexists. split; [apply removeAllTranslationUnits_run|].
    fields. rewrite H0. cbn [disposedEngine disposeCalls fold_left map].
    rewrite app_nil_r. repeat split. }
  match goal with |- context [getTranslationUnit env (S fuel) p ?x] =>
    set (s1 := x) end.
  assert (Hf1 : TranslationUnits.find (FilePath.absolutePath p)
                  (translationUnits_ s1) = None)
    by apply TUFacts.empty_o.
  assert (Hargs : forall a, parseArgs s1 a = parseArgs s a) by reflexivity.
  assert (Hidx : index_ s1 = index_ s) by reflexivity.
  destruct (getTranslationUnit_first_request env fuel p s1 Hp Hf1)
    as (t & s2 & Hg & Hc & He & Ht & Hfind).
  rewrite Hargs, Hidx in Hc, He, Ht, Hfind.
  exists t, s2. split; [exact Hg|]. split; [exact Hc|].
  intros s0 Hf0 Hi0 Hv0 He0.
  assert (Hargs0 : forall a, parseArgs s0 a = parseArgs s a).
  { intro a. unfold parseArgs. rewrite Hv0. reflexivity. }
  destruct (getTranslationUnit_first_request env fuel p s0 Hp Hf0)
    as (t0 & s3 & Hg0 & Hc0 & He3 & Ht0 & Hfind0).
  change (index_ s0 = index_ s) in Hi0.
  change (engine s0 = engine s1) in He0.
  rewrite Hargs0, Hi0 in Hc0, He3, Ht0, Hfind0.
  rewrite He0 in He3, Ht0, Hfind0.
  exists s3. split; [rewrite Hg0, Ht0, Ht; reflexivity|].
  split; [exact Hc0|].
  split; [rewrite He3, He; reflexivity|].
  rewrite Hfind0, Hfind. reflexivity.
Qed.

End RemoveAll.

(** The cases of a request for a translation unit, after
    [getSourceTranslationUnit_run]: the stored unit is taken as it is,
    reparsed, rebuilt after a failed reparse, rebuilt for new arguments, or
    the file is parsed for the first time; each rebuild with a parse that
    fails or succeeds. *)
Ltac rebuild_cases Hf Hnull :=
  match goal with
  | |- context [fullRebuild ?e ?p ?a ?w ?s0] =>
      first [ rewrite (fullRebuild_present e p a w s0 _ Hf)
            | rewrite (fullRebuild_absent e p a w s0 Hf) ]
  end;
  cbv zeta; unfold afterParse, logged, afterReparse; fields;
  destruct (fst (parseTranslationUnit _ _ _ _ _) =? NULL)%N eqn:Hnull;
  cbn [negb].

Ltac request_cases stored Hf Hargs Htime Hret Hnull :=
  rewrite getSourceTranslationUnit_run; cbv zeta;
  destruct (TranslationUnits.find _ _) as [stored|] eqn:Hf;
  [ destruct (list_eq_dec string_dec _ (compileArgs stored)) as [Hargs|Hargs];
    [ destruct (_ =? lastWriteTime stored)%Z eqn:Htime;
      [ | destruct (_ =? 0)%Z eqn:Hret;
          [ unfold stored_as, afterReparse, touched; fields
          | rebuild_cases Hf Hnull ] ]
    | rebuild_cases Hf Hnull ]
  | rebuild_cases Hf Hnull ].

(** ** The search for a header among the source files *)

Section HeaderSearch.

Context {E : Type} `{LibClang E}.
Variable env : Environment.

(** A unit is empty when its handle is null. *)
Lemma empty_unit (f : string) (h : CXTranslationUnit) :
  empty {| filename_ := f; cxTU_ := h |} = (h =? NULL)%N.
Proof. reflexivity. Qed.

(** A request for a translation unit that comes back empty has logged
    the parse failure, after the reparse failure if there was one. *)
Lemma failed_request_log
      (fuel : nat) (p : FilePath.t) (s : SourceIndex E) :
  isTranslationUnit p = true ->
  handlesNonNull (translationUnits_ s) = true ->
  exists t s1,
    getTranslationUnit env (S fuel) p s = Some (t, s1) /\
    (empty t = true ->
     exists l,
       errorLog s1 =
         (errorLog s ++ l ++
          [("Error parsing translation unit " ++ FilePath.absolutePath p)
           %string])%list /\
       (l = [] \/
        l = [("Error re-parsing translation unit " ++
              FilePath.absolutePath p)%string])).
Proof.
  intros Hp Hnn.
  assert (Hstored : forall st,
             TranslationUnits.find (FilePath.absolutePath p)
               (translationUnits_ s) = Some st ->
             (tu st =? NULL)%N = false).
  { intros st Hst. apply N.eqb_neq.
    apply (proj1 (handlesNonNull_find _) Hnn _ _ Hst). }
  rewrite getTranslationUnit_source by assumption.
  request_cases stored Hf Hargs Htime Hret Hnull;
    try (pose proof (Hstored _ eq_refl) as Hst);
    (eexists; eexists; split; [reflexivity|]);
    rewrite ?empty_unit, ?Hst, ?Hnull; intro He; try discriminate He;
    fields; rewrite <- ?app_assoc.
  - eexists. split; [reflexivity|]. right. reflexivity.
  - exists []. split; [reflexivity|]. left. reflexivity.
  - exists []. split; [reflexivity|]. left. reflexivity.
Qed.

(** The loop over source files returns when the files it is given are
    translation units. *)
Lemma searchSources_returns
      (fuel : nat) (header : FilePath.t) (srcFiles : list FilePath.t)
      (s : SourceIndex E) :
  Forall (fun q => isTranslationUnit q = true) srcFiles ->
  handlesNonNull (translationUnits_ s) = true ->
  exists t s',
    searchSources (getTranslationUnit env (S fuel)) header srcFiles s
      = Some (t, s').
Proof.
  intro Hall. revert s.
  induction Hall as [|src rest Hsrc _ IH]; intros s Hnn.
  - eexists. eexists. reflexivity.
  - cbn [searchSources]. unfold bind at 1.
    destruct (getTranslationUnit_result env fuel src s Hsrc Hnn)
      as (t1 & s1 & Hg & _ & _).
    rewrite Hg.
    pose proof (getTranslationUnit_nonNull env _ _ _ _ _ Hnn Hg) as H1.
    destruct (empty t1); cbn [negb]; [apply IH; exact H1|].
    unfold bind at 1, includesFile at 1.
    destruct (getFile _ _ _); [eexists; eexists; reflexivity|].
    unfold bind at 1. rewrite removeTranslationUnit_run.
    apply IH. apply nonNull_entries.
    apply afterRemove_entries; [auto|]. apply nonNull_entries. exact H1.
Qed.

(** C10, as the code has it: in the loop over the source files of the
    compilation database, a translation unit whose request comes back
    empty is passed over, and the failure is logged, not silent: the
    request asked libclang nothing about included files, it left no entry
    for that source file, and it wrote the parse failure to the error log.
    The loop is not left: it goes on from the index the request left; with
    no source file remaining it returns the empty result and that index;
    otherwise the next source file is requested from that index, in the
    order of the compilation database, and is tested for the header when
    its unit is not empty; and with translation units only among the
    remaining files the loop returns. *)
Theorem searchSources_skips_failed_parse
        (fuel : nat) (header src : FilePath.t) (rest : list FilePath.t)
        (s s1 : SourceIndex E) (t : TranslationUnit) :
  isTranslationUnit src = true ->
  handlesNonNull (translationUnits_ s) = true ->
  getTranslationUnit env (S fuel) src s = Some (t, s1) ->
  empty t = true ->
  let get := getTranslationUnit env (S fuel) in
  TranslationUnits.find (FilePath.absolutePath src) (translationUnits_ s1)
    = None /\
  (exists cs,
      calls s1 = (calls s ++ cs)%list /\
      forall h f, ~ In (GetFileCall h f) cs) /\
  (exists l,
      errorLog s1 =
        (errorLog s ++ l ++
         [("Error parsing translation unit " ++ FilePath.absolutePath src)
          %string])%list /\
      (l = [] \/
       l = [("Error re-parsing translation unit " ++
             FilePath.absolutePath src)%string])) /\
  searchSources get header (src :: rest) s = searchSources get header rest s1 /\
  (rest = [] ->
   searchSources get header (src :: rest) s
     = Some (emptyTranslationUnit, s1)) /\
  (forall next rest',
      rest = next :: rest' -> isTranslationUnit next = true ->
      exists t2 s2,
        get next s1 = Some (t2, s2) /\
        searchSources get header (src :: rest) s =
        (if negb (empty t2)
         then (found <- includesFile t2 header ;;
               if found then ret t2
               else removeTranslationUnit (FilePath.absolutePath header) ;;;
                    searchSources get header rest')
         else searchSources get header rest') s2) /\
  (Forall (fun q => isTranslationUnit q = true) rest ->
   exists t' s',
     searchSources get header rest s1 = Some (t', s') /\
     searchSources get header (src :: rest) s = Some (t', s')).
Proof.
  intros Hsrc Hnn Hrun He get.
  destruct (getTranslationUnit_result env fuel src s Hsrc Hnn)
    as (t' & s' & Hg & _ & Hempty).
  rewrite Hrun in Hg. injection Hg as <- <-.
  destruct (Hempty He) as (_ & Hnone & cs & a & Hc & Hno).
  pose proof (getTranslationUnit_nonNull env _ _ _ _ _ Hnn Hrun) as Hnn1.
  assert (Hloop : searchSources get header (src :: rest) s =
                  searchSources get header rest s1).
  { cbn [searchSources]. unfold bind at 1. unfold get at 1.
    rewrite Hrun, He. reflexivity. }
  split; [exact Hnone|]. split.
  { eexists. split; [exact Hc|].
    intros h f Hin. apply in_app_or in Hin. destruct Hin as [Hin|Hin].
    - exact (Hno _ _ Hin).
    - destruct Hin as [Hin|[]]. discriminate. }
  split.
  { destruct (failed_request_log fuel src s Hsrc Hnn)
      as (t' & s' & Hg & Hlog).
    rewrite Hrun in Hg. injection Hg as <- <-. exact (Hlog He). }
  split; [exact Hloop|]. split.
  { intros ->. rewrite Hloop. reflexivity. }
  split.
  { intros next rest' -> Hnext.
    destruct (getTranslationUnit_result env fuel next s1 Hnext Hnn1)
      as (t2 & s2 & Hg & _ & _).
    exists t2, s2. split; [exact Hg|].
    rewrite Hloop. cbn [searchSources]. unfold bind at 1. unfold get at 1.
    rewrite Hg. reflexivity. }
  intro Hall. rewrite Hloop.
  destruct (searchSources_returns fuel header rest s1 Hall Hnn1)
    as (t' & s' & Hr).
  exists t', s'. split; exact Hr.
Qed.

(** In the same loop, a source file that was parsed and does not include
    the header stays stored: what is removed is the entry of the header's
    own path, and there is none. *)
Lemma searchSources_keeps_other_source
      (get : FilePath.t -> M E TranslationUnit)
      (header src : FilePath.t) (rest : list FilePath.t)
      (s s1 : SourceIndex E) (t : TranslationUnit) :
  get src s = Some (t, s1) ->
  empty t = false ->
  getFile (cxTU_ t) (FilePath.absolutePath header) (engine s1) = false ->
  TranslationUnits.find (FilePath.absolutePath header) (translationUnits_ s1)
    = None ->
  searchSources get header (src :: rest) s =
  searchSources get header rest
    (mkSourceIndex (index_ s1) (verbose_ s1) (translationUnits_ s1)
       (engine s1)
       (calls s1 ++ [GetFileCall (cxTU_ t) (FilePath.absolutePath header)])
       (errorLog s1)).
Proof.
  intros Hget He Hfile Hnone.
  cbn [searchSources]. unfold bind at 1. rewrite Hget, He. cbn [negb].
  unfold bind at 1, includesFile at 1. rewrite Hfile.
  unfold bind at 1. rewrite removeTranslationUnit_run.
  rewrite afterRemove_absent by exact Hnone. reflexivity.
Qed.

End HeaderSearch.

(** ** The scripted library and the concrete runs *)

(** The scripted library never returns a handle twice: the handles it has
    returned are those below its counter. *)
#[global] Instance scripted_fresh : FreshHandles Scripted.State.
Proof.
  refine {| issued := fun e h => (h < Scripted.nextHandle e)%N |}.
  - intros i f a u e. simpl. unfold Scripted.parse.
    destruct (Scripted.mem f (Scripted.failing e)); simpl.
    + intro Hn. contradiction.
    + intros _. apply N.lt_irrefl.
  - intros i f a u e. simpl. unfold Scripted.parse.
    destruct (Scripted.mem f (Scripted.failing e)); simpl.
    + intro Hn. contradiction.
    + intros _. lia.
  - intros i f a u e x. simpl. unfold Scripted.parse.
    destruct (Scripted.mem f (Scripted.failing e)); simpl; lia.
  - intros h u e x. simpl. unfold Scripted.reparse.
    destruct (Scripted.fileOf h (Scripted.live e)) as [f|]; [|auto].
    destruct (Scripted.mem f (Scripted.reparseFailing e)); auto.
  - intros h e x. simpl. auto.
Defined.

Example cold_is_reached :
  Object.initialize (Some Scenario.env) 0 (newSourceIndex Scenario.lib)
  = Object.Returned tt (Object.make (Some Scenario.env) Scenario.cold).
Proof. reflexivity. Qed.

Example warm_is_reached :
  getTranslationUnit Scenario.env 1 "/a.cpp" Scenario.cold
  = Some ({| filename_ := "/a.cpp"; cxTU_ := 1%N |}, Scenario.warm).
Proof. reflexivity. Qed.

(** C10, where the skip is not silent: the library cannot parse "/b.cpp";
    the error log is empty before the request for "/util.h", which goes
    on to "/a.cpp" and returns its unit, and holds the parse failure of
    "/b.cpp" after it. *)
Lemma failed_parse_is_logged :
  errorLog Scenario.coldFailing = [] /\
  getTranslationUnit Scenario.env 1 "/b.cpp" Scenario.coldFailing
    = Some (emptyTranslationUnit, Scenario.afterFailure) /\
  errorLog Scenario.afterFailure = ["Error parsing translation unit /b.cpp"] /\
  observe (getTranslationUnit Scenario.env 2 "/util.h" Scenario.coldFailing) =
  Some ({| filename_ := "/a.cpp"; cxTU_ := 1%N |},
        [("/a.cpp", {| compileArgs := Scenario.flags; lastWriteTime := 5;
                       tu := 1%N |})],
        [CreateIndexCall 0 0;
         ParseCall 1%N "/b.cpp" Scenario.flags [];
         ParseCall 1%N "/a.cpp" Scenario.flags [];
         GetFileCall 1%N "/util.h"],
        ["Error parsing translation unit /b.cpp"]).
Proof.
  split; [reflexivity|]. split; [reflexivity|]. split; [reflexivity|].
  vm_compute. reflexivity.
Qed.

(** C4, where the handle does not change: the library hands out again the
    handle it was last given back.  "/a.cpp" is stored with handle 1; its
    compile arguments have changed; the request disposes handle 1, parses
    the file, and the new entry holds handle 1. *)
Lemma rebuild_returns_disposed_handle :
  getTranslationUnit Scenario.env 1 "/a.cpp" Recycling.cold
    = Some ({| filename_ := "/a.cpp"; cxTU_ := 1%N |}, Recycling.warm) /\
  TranslationUnits.find "/a.cpp" (translationUnits_ Recycling.warm)
    = Some Scenario.storedA /\
  tu Scenario.storedA = 1%N /\
  compileArgsForTranslationUnit Scenario.envFlags "/a.cpp"
    <> compileArgs Scenario.storedA /\
  observe (getTranslationUnit Scenario.envFlags 1 "/a.cpp" Recycling.warm) =
  Some ({| filename_ := "/a.cpp"; cxTU_ := 1%N |},
        [("/a.cpp", {| compileArgs := ["-std=c++14"]; lastWriteTime := 5;
                       tu := 1%N |})],
        [CreateIndexCall 0 0;
         ParseCall 1%N "/a.cpp" Scenario.flags [];
         DisposeCall 1%N;
         ParseCall 1%N "/a.cpp" ["-std=c++14"] []],
        []).
Proof.
  split; [reflexivity|]. split; [reflexivity|]. split; [reflexivity|].
  split; [discriminate|]. vm_compute. reflexivity.
Qed.

(** C1, on the code: the index is cold, the compilation database lists
    "/b.cpp" and then "/a.cpp", and only "/a.cpp" includes "/util.h".
    The request for "/util.h" parses both and returns the unit of
    "/a.cpp"; the unit of "/b.cpp", which does not include the header, is
    still stored when the request returns, and its handle was never
    disposed. *)
Theorem cold_header_lookup_keeps_other_source :
  observe (getTranslationUnit Scenario.env 2 "/util.h" Scenario.cold) =
  Some ({| filename_ := "/a.cpp"; cxTU_ := 2%N |},
        [("/a.cpp", {| compileArgs := Scenario.flags; lastWriteTime := 5;
                       tu := 2%N |});
         ("/b.cpp", {| compileArgs := Scenario.flags; lastWriteTime := 5;
                       tu := 1%N |})],
        [CreateIndexCall 0 0;
         ParseCall 1%N "/b.cpp" Scenario.flags [];
         GetFileCall 1%N "/util.h";
         ParseCall 1%N "/a.cpp" Scenario.flags [];
         GetFileCall 2%N "/util.h"],
        []).
Proof. vm_compute. reflexivity. Qed.

(** C6, where a reparse is missing: "/a.cpp" is stored, its compile
    arguments and write time are the current ones, and
    [reprimeTranslationUnit] returns without any call to libclang, a
    reparse in particular. *)
Lemma reprime_present_calls_nothing :
  TranslationUnits.find "/a.cpp" (translationUnits_ Scenario.warm)
    = Some Scenario.storedA /\
  exists s',
    reprimeTranslationUnit Scenario.env 1 "/a.cpp" Scenario.warm
      = Some (tt, s') /\
    calls s' = calls Scenario.warm /\
    forall h u, ~ In (ReparseCall h u) (calls s').
Proof.
  split; [reflexivity|]. exists Scenario.warm.
  split; [reflexivity|]. split; [reflexivity|].
  intros h u [Hin|[Hin|[]]]; discriminate.
Qed.

(** ** The theorems at work on the concrete runs *)

Lemma classifyPath_spec_witness :
  classifyPath "/src/Makefile" = HeaderFile /\
  classifyPath "/src/Main.CPP" = classifyPath "/lib/x.cpp".
Proof.
  split.
  - apply (classifyPath_spec "/src/Makefile"). reflexivity.
  - apply (classifyPath_spec "/lib/x.cpp"). reflexivity.
Defined.

Lemma getTranslationUnit_reuse_witness :
  getTranslationUnit Scenario.env 1 "/a.cpp" Scenario.warm =
  Some ({| filename_ := "/a.cpp"; cxTU_ := 1%N |}, Scenario.warm).
Proof.
  apply (getTranslationUnit_reuse Scenario.env 0 "/a.cpp" Scenario.warm
           Scenario.storedA); reflexivity.
Defined.

Lemma getTranslationUnit_reparse_witness :
  exists t s',
    getTranslationUnit Scenario.envTouched 1 "/a.cpp" Scenario.warm
      = Some (t, s') /\
    t = {| filename_ := "/a.cpp"; cxTU_ := 1%N |} /\
    TranslationUnits.elements (translationUnits_ s') =
      [("/a.cpp", {| compileArgs := Scenario.flags; lastWriteTime := 6;
                     tu := 1%N |})] /\
    calls s' = [CreateIndexCall 0 0; ParseCall 1%N "/a.cpp" Scenario.flags [];
                ReparseCall 1%N []].
Proof.
  destruct (getTranslationUnit_reparse Scenario.envTouched 0 "/a.cpp"
              Scenario.warm Scenario.storedA)
    as (t & s' & Hrun & Hok & _).
  - reflexivity.
  - reflexivity.
  - reflexivity.
  - simpl. lia.
  - destruct (Hok eq_refl) as (Ht & Hunits & _ & Hcalls & _).
    exists t, s'. split; [exact Hrun|]. split; [exact Ht|].
    split; [rewrite Hunits; reflexivity | exact Hcalls].
Defined.

Lemma getTranslationUnit_rebuild_witness :
  (exists t s',
      getTranslationUnit Scenario.envFlags 1 "/a.cpp" Scenario.warm
        = Some (t, s') /\
      t = {| filename_ := "/a.cpp"; cxTU_ := 2%N |} /\
      2%N <> tu Scenario.storedA /\
      calls s' =
        [CreateIndexCall 0 0; ParseCall 1%N "/a.cpp" Scenario.flags [];
         DisposeCall 1%N; ParseCall 1%N "/a.cpp" ["-std=c++14"] []]) /\
  (exists t s',
      getTranslationUnit Scenario.envFlags 1 "/a.cpp" Recycling.warm
        = Some (t, s') /\
      t = {| filename_ := "/a.cpp"; cxTU_ := tu Scenario.storedA |} /\
      calls s' =
        [CreateIndexCall 0 0; ParseCall 1%N "/a.cpp" Scenario.flags [];
         DisposeCall 1%N; ParseCall 1%N "/a.cpp" ["-std=c++14"] []]).
Proof.
  split.
  - destruct (getTranslationUnit_rebuild Scenario.envFlags 0 "/a.cpp"
                Scenario.warm Scenario.storedA)
      as (t & s' & Hrun & Hcalls & _ & _ & Hok & _).
    + reflexivity.
    + reflexivity.
    + simpl. unfold Scenario.flags. discriminate.
    + destruct Hok as (Ht & _ & _ & Hne).
      * simpl. unfold NULL. lia.
      * exists t, s'. split; [exact Hrun|]. split; [exact Ht|].
        split; [|exact Hcalls].
        apply (Hne scripted_fresh). simpl. lia.
  - destruct (getTranslationUnit_rebuild Scenario.envFlags 0 "/a.cpp"
                Recycling.warm Scenario.storedA)
      as (t & s' & Hrun & Hcalls & _ & _ & Hok & _).
    + reflexivity.
    + reflexivity.
    + simpl. unfold Scenario.flags. discriminate.
    + destruct Hok as (Ht & _).
      * simpl. unfold NULL. lia.
      * exists t, s'. split; [exact Hrun|]. split; [exact Ht|].
        exact Hcalls.
Defined.


Lemma reprime_follows_policy_witness :
  reprimeTranslationUnit Scenario.env 1 "/a.cpp" Scenario.warm
    = Some (tt, Scenario.warm) /\
  reprimeTranslationUnit Scenario.envTouched 1 "/a.cpp" Scenario.warm
    = Some (tt,
            mkSourceIndex 1%N 0
              (TranslationUnits.add "/a.cpp"
                 {| compileArgs := Scenario.flags; lastWriteTime := 6;
                    tu := 1%N |}
                 (translationUnits_ Scenario.warm))
              (engine Scenario.warm)
              [CreateIndexCall 0 0; ParseCall 1%N "/a.cpp" Scenario.flags [];
               ReparseCall 1%N []]
              []) /\
  (exists s',
      reprimeTranslationUnit Scenario.envFlags 1 "/a.cpp" Scenario.warm
        = Some (tt, s') /\
      calls s' =
        [CreateIndexCall 0 0; ParseCall 1%N "/a.cpp" Scenario.flags [];
         DisposeCall 1%N; ParseCall 1%N "/a.cpp" ["-std=c++14"] []] /\
      TranslationUnits.find "/a.cpp" (translationUnits_ s') =
        Some {| compileArgs := ["-std=c++14"]; lastWriteTime := 5;
                tu := 2%N |} /\
      errorLog s' = []) /\
  reprimeTranslationUnit Scenario.env 1 "/util.h" Scenario.warm
    = Some (tt, Scenario.warm).
Proof.
  split; [|split; [|split]].
  - destruct (proj2 (reprime_follows_policy Scenario.env 0 "/a.cpp"
                       Scenario.warm) Scenario.storedA eq_refl)
      as (_ & Hpolicy).
    destruct (Hpolicy eq_refl) as (Hfresh & _).
    apply Hfresh; reflexivity.
  - destruct (proj2 (reprime_follows_policy Scenario.envTouched 0 "/a.cpp"
                       Scenario.warm) Scenario.storedA eq_refl)
      as (_ & Hpolicy).
    destruct (Hpolicy eq_refl) as (_ & Hre & _).
    apply Hre; [reflexivity | simpl; lia | reflexivity].
  - destruct (proj2 (reprime_follows_policy Scenario.envFlags 0 "/a.cpp"
                       Scenario.warm) Scenario.storedA eq_refl)
      as (_ & Hpolicy).
    destruct (Hpolicy eq_refl) as (_ & _ & _ & Hnew).
    destruct Hnew as (t & s' & _ & Hrun & Hcalls & Hentry & _ & Hlog & _).
    + simpl. unfold Scenario.flags. discriminate.
    + exists s'. split; [exact Hrun|]. split; [exact Hcalls|].
      split; [exact Hentry | exact Hlog].
  - apply (proj1 (reprime_follows_policy Scenario.env 1 "/util.h"
                    Scenario.warm)). reflexivity.
Defined.

Lemma prime_present_reprime_absent_witness :
  primeTranslationUnit Scenario.env 1 "/a.cpp" Scenario.warm
    = Some (tt, Scenario.warm) /\
  reprimeTranslationUnit Scenario.env 1 "/b.cpp" Scenario.warm
    = Some (tt, Scenario.warm).
Proof.
  split.
  - apply (proj1 (prime_present_reprime_absent Scenario.env 1 "/a.cpp"
                    Scenario.warm)). simpl. discriminate.
  - apply (proj2 (prime_present_reprime_absent Scenario.env 1 "/b.cpp"
                    Scenario.warm)). reflexivity.
Defined.

Lemma removeAll_then_request_witness :
  exists s1,
    removeAllTranslationUnits Scenario.warm = Some (tt, s1) /\
    translationUnits_ s1 = TranslationUnits.empty StoredTranslationUnit /\
    calls s1 = [CreateIndexCall 0 0; ParseCall 1%N "/a.cpp" Scenario.flags [];
                DisposeCall 1%N] /\
    removeAllTranslationUnits s1 = Some (tt, s1) /\
    exists t s2,
      getTranslationUnit Scenario.env 1 "/a.cpp" s1 = Some (t, s2) /\
      calls s2 = (calls s1 ++ [ParseCall 1%N "/a.cpp" Scenario.flags []])%list.
Proof.
  destruct (removeAll_then_request Scenario.env 0 "/a.cpp" Scenario.warm)
    as (s1 & Hrun & Hunits & Hcalls & _ & Hidle & _ & t & s2 & Hget & Hc & _).
  - reflexivity.
  - exists s1. split; [exact Hrun|]. split; [exact Hunits|].
    split; [exact Hcalls|]. split; [exact Hidle|].
    exists t, s2. split; [exact Hget | exact Hc].
Defined.

Lemma searchSources_skips_failed_parse_witness :
  getTranslationUnit Scenario.env 1 "/b.cpp" Scenario.coldFailing
    = Some (emptyTranslationUnit, Scenario.afterFailure) /\
  TranslationUnits.find "/b.cpp" (translationUnits_ Scenario.afterFailure)
    = None /\
  (exists l,
      errorLog Scenario.afterFailure =
        (errorLog Scenario.coldFailing ++ l ++
         ["Error parsing translation unit /b.cpp"])%list) /\
  (exists t2 s2,
      getTranslationUnit Scenario.env 1 "/a.cpp" Scenario.afterFailure
        = Some (t2, s2)) /\
  exists t' s',
    searchSources (getTranslationUnit Scenario.env 1) "/util.h"
      ["/b.cpp"; "/a.cpp"] Scenario.coldFailing = Some (t', s').
Proof.
  split; [reflexivity|].
  destruct (searchSources_skips_failed_parse Scenario.env 0 "/util.h"
              "/b.cpp" ["/a.cpp"] Scenario.coldFailing Scenario.afterFailure
              emptyTranslationUnit)
    as (Hnone & _ & Hlog & _ & _ & Hnext & Hreturns).
  - reflexivity.
  - reflexivity.
  - reflexivity.
  - reflexivity.
  - split; [exact Hnone|]. split.
    + destruct Hlog as (l & Hl & _). exists l. exact Hl.
    + split.
      * destruct (Hnext "/a.cpp" [] eq_refl eq_refl) as (t2 & s2 & Hg & _).
        exists t2, s2. exact Hg.
      * destruct Hreturns as (t' & s' & _ & Hr).
        { repeat constructor. }
        exists t', s'. exact Hr.
Defined.
(** * Further properties of the code *)

Section Further.

Context {E : Type} `{LibClang E}.
Variable env : Environment.

(** X1: [removeTranslationUnit] always returns; afterwards the path has
    no entry and every other entry is as before; the one call it makes is
    the dispose of the handle that was stored, none when the path had no
    entry, in which case the index is left as it was; a second removal of
    the same path does nothing. *)
Theorem removeTranslationUnit_erases (filename : string) (s : SourceIndex E) :
  exists s',
    removeTranslationUnit filename s = Some (tt, s') /\
    TranslationUnits.find filename (translationUnits_ s') = None /\
    (forall k, k <> filename ->
               TranslationUnits.find k (translationUnits_ s') =
               TranslationUnits.find k (translationUnits_ s)) /\
    calls s' =
      (calls s ++
       match TranslationUnits.find filename (translationUnits_ s) with
       | Some stored => [DisposeCall (tu stored)]
       | None => []
       end)%list /\
    (TranslationUnits.find filename (translationUnits_ s) = None -> s' = s) /\
    removeTranslationUnit filename s' = Some (tt, s').
Proof.
  exists (afterRemove filename s).
  split; [apply removeTranslationUnit_run|].
  split; [apply afterRemove_find|].
  split; [intros k Hk; apply afterRemove_find_other; exact Hk|].
  split.
  { unfold afterRemove.
    destruct (TranslationUnits.find filename (translationUnits_ s));
      [reflexivity | rewrite app_nil_r; reflexivity]. }
  split; [apply afterRemove_absent|].
  rewrite removeTranslationUnit_run. f_equal. f_equal.
  apply afterRemove_absent, afterRemove_find.
Qed.

(** X2: a request for a translation unit always returns, and it reads and
    writes the entry of that path only: every other entry, the index
    handle and the verbosity are as before. *)
Theorem request_touches_own_entry
        (fuel : nat) (p : FilePath.t) (s : SourceIndex E) :
  isTranslationUnit p = true ->
  exists t s',
    getTranslationUnit env (S fuel) p s = Some (t, s') /\
    (forall k, k <> FilePath.absolutePath p ->
               TranslationUnits.find k (translationUnits_ s') =
               TranslationUnits.find k (translationUnits_ s)) /\
    index_ s' = index_ s /\ verbose_ s' = verbose_ s.
Proof.
  intro Hp. rewrite getTranslationUnit_source by assumption.
  request_cases stored Hf Hargs Htime Hret Hnull;
    (eexists; eexists; split; [reflexivity|]; fields;
     split; [|split; reflexivity]; intros k Hk;
     rewrite ?TUFacts.add_neq_o, ?TUFacts.remove_neq_o by congruence;
     reflexivity).
Qed.

(** X3: the calls that a request for a translation unit makes.  For a
    path without entry it is one parse.  For a stored unit it is nothing,
    or one reparse of the stored handle, or that reparse followed by the
    dispose of the handle and a parse, or the dispose and a parse; so at
    most one call of each kind, a reparse before a dispose, a dispose
    before a parse, and never a question about included files. *)
Theorem request_calls
        (fuel : nat) (p : FilePath.t) (s : SourceIndex E) :
  isTranslationUnit p = true ->
  let u := unsavedFiles env in
  let parse :=
    ParseCall (index_ s) (FilePath.absolutePath p)
              (parseArgs s (compileArgsForTranslationUnit env p)) u in
  exists t s' cs,
    getTranslationUnit env (S fuel) p s = Some (t, s') /\
    calls s' = (calls s ++ cs)%list /\
    match TranslationUnits.find (FilePath.absolutePath p)
                                (translationUnits_ s) with
    | None => cs = [parse]
    | Some stored =>
        cs = [] \/
        cs = [ReparseCall (tu stored) u] \/
        cs = [ReparseCall (tu stored) u; DisposeCall (tu stored); parse] \/
        cs = [DisposeCall (tu stored); parse]
    end.
Proof.
  intros Hp u parse. rewrite getTranslationUnit_source by assumption.
  request_cases stored Hf Hargs Htime Hret Hnull;
    (eexists; eexists; eexists; split; [reflexivity|]; fields;
     rewrite <- ?app_assoc;
     split; [try reflexivity; symmetry; apply app_nil_r|];
     subst parse u; unfold parseArgs; fields; auto).
Qed.

(** The two messages differ. *)
Lemma reparse_message_differs (f : string) :
  "Error re-parsing translation unit " ++ f <>
  "Error parsing translation unit " ++ f.
Proof. simpl. intro Heq. discriminate Heq. Qed.

(** X4: what a request for a translation unit logs, in an index without
    null handles: nothing, or the reparse failure, or the parse failure,
    or both in that order; and the result is empty exactly when the parse
    failure was logged. *)
Theorem request_log
        (fuel : nat) (p : FilePath.t) (s : SourceIndex E) :
  isTranslationUnit p = true ->
  handlesNonNull (translationUnits_ s) = true ->
  let reparseFailed :=
    "Error re-parsing translation unit " ++ FilePath.absolutePath p in
  let parseFailed :=
    "Error parsing translation unit " ++ FilePath.absolutePath p in
  exists t s' l,
    getTranslationUnit env (S fuel) p s = Some (t, s') /\
    errorLog s' = (errorLog s ++ l)%list /\
    (l = [] \/ l = [reparseFailed] \/ l = [parseFailed] \/
     l = [reparseFailed; parseFailed]) /\
    (empty t = true <-> In parseFailed l).
Proof.
  intros Hp Hnn reparseFailed parseFailed.
  pose proof (reparse_message_differs (FilePath.absolutePath p)) as Hdiff.
  fold reparseFailed in Hdiff. fold parseFailed in Hdiff.
  assert (Hstored : forall st,
             TranslationUnits.find (FilePath.absolutePath p)
               (translationUnits_ s) = Some st ->
             (tu st =? NULL)%N = false).
  { intros st Hst. apply N.eqb_neq.
    apply (proj1 (handlesNonNull_find _) Hnn _ _ Hst). }
  rewrite getTranslationUnit_source by assumption.
  request_cases stored Hf Hargs Htime Hret Hnull;
    try (pose proof (Hstored _ eq_refl) as Hst);
    (eexists; eexists; eexists; split; [reflexivity|]; fields;
     rewrite <- ?app_assoc;
     split; [try reflexivity; symmetry; apply app_nil_r|];
     unfold empty; cbn [cxTU_ emptyTranslationUnit];
     rewrite ?Hst, ?Hnull;
     fold reparseFailed; fold parseFailed;
     split; [auto|]; simpl; intuition congruence).
Qed.

(** X5: with [verbose_] below 2, a first request whose parse succeeds is
    followed by a hit: the same request, in the same environment, returns
    the same result and leaves the index, the calls among it, as the first
    request left it. *)
Theorem request_twice
        (fuel : nat) (p : FilePath.t) (s : SourceIndex E) :
  isTranslationUnit p = true ->
  TranslationUnits.find (FilePath.absolutePath p) (translationUnits_ s)
    = None ->
  (verbose_ s < 2)%Z ->
  fst (parseTranslationUnit (index_ s) (FilePath.absolutePath p)
         (compileArgsForTranslationUnit env p) (unsavedFiles env)
         (engine s)) <> NULL ->
  exists t s',
    getTranslationUnit env (S fuel) p s = Some (t, s') /\
    empty t = false /\
    calls s' =
      (calls s ++
       [ParseCall (index_ s) (FilePath.absolutePath p)
          (compileArgsForTranslationUnit env p) (unsavedFiles env)])%list /\
    getTranslationUnit env (S fuel) p s' = Some (t, s').
Proof.
  intros Hp Hf Hv Hh.
  assert (Hpa : parseArgs s (compileArgsForTranslationUnit env p)
                = compileArgsForTranslationUnit env p).
  { unfold parseArgs. apply Z.leb_gt in Hv. rewrite Hv. reflexivity. }
  rewrite !getTranslationUnit_source by assumption.
  rewrite getSourceTranslationUnit_run. cbv zeta. rewrite Hf.
  rewrite fullRebuild_absent by exact Hf. cbv zeta. rewrite Hpa.
  unfold afterParse. apply N.eqb_neq in Hh. rewrite Hh. cbn [negb].
  eexists. eexists. split; [reflexivity|].
  split; [unfold empty; cbn [cxTU_]; exact Hh|].
  split; [reflexivity|].
  rewrite getSourceTranslationUnit_run. cbv zeta. fields.
  rewrite TUFacts.add_eq_o by reflexivity. cbn [compileArgs lastWriteTime tu].
  destruct (list_eq_dec string_dec _ _) as [_|Hn]; [|contradiction].
  rewrite Z.eqb_refl. reflexivity.
Qed.

(** X6: with [verbose_] at 2 or more the stored arguments carry the
    appended "-v", which the compilation database does not give, so the
    same request made again in the same environment is no hit: it
    disposes the handle the first request returned and parses the file
    again. *)
Theorem verbose_request_twice
        (fuel : nat) (p : FilePath.t) (s : SourceIndex E) :
  isTranslationUnit p = true ->
  TranslationUnits.find (FilePath.absolutePath p) (translationUnits_ s)
    = None ->
  (2 <= verbose_ s)%Z ->
  fst (parseTranslationUnit (index_ s) (FilePath.absolutePath p)
         (compileArgsForTranslationUnit env p ++ ["-v"])%list
         (unsavedFiles env) (engine s)) <> NULL ->
  exists t s1 t2 s2,
    getTranslationUnit env (S fuel) p s = Some (t, s1) /\
    empty t = false /\
    getTranslationUnit env (S fuel) p s1 = Some (t2, s2) /\
    calls s2 =
      (calls s1 ++
       [DisposeCall (cxTU_ t);
        ParseCall (index_ s) (FilePath.absolutePath p)
          (compileArgsForTranslationUnit env p ++ ["-v"])%list
          (unsavedFiles env)])%list.
Proof.
  intros Hp Hf Hv Hh.
  assert (Hpa : forall (s0 : SourceIndex E) a, verbose_ s0 = verbose_ s ->
                             parseArgs s0 a = (a ++ ["-v"])%list).
  { intros s0 a Hs0. unfold parseArgs. rewrite Hs0.
    apply Z.leb_le in Hv. rewrite Hv. reflexivity. }
  rewrite !getTranslationUnit_source by assumption.
  rewrite getSourceTranslationUnit_run. cbv zeta. rewrite Hf.
  rewrite fullRebuild_absent by exact Hf. cbv zeta.
  rewrite (Hpa s) by reflexivity.
  unfold afterParse. apply N.eqb_neq in Hh. rewrite Hh. cbn [negb].
  match goal with |- context [Some (?t0, ?s0) = Some _] =>
    set (t1 := t0); set (s1 := s0) end.
  assert (H2 : exists t2 s2,
             getSourceTranslationUnit env p s1 = Some (t2, s2) /\
             calls s2 =
               (calls s1 ++
                [DisposeCall (cxTU_ t1);
                 ParseCall (index_ s) (FilePath.absolutePath p)
                   (compileArgsForTranslationUnit env p ++ ["-v"])%list
                   (unsavedFiles env)])%list).
  { rewrite getSourceTranslationUnit_run. cbv zeta. unfold s1 at 1. fields.
    rewrite TUFacts.add_eq_o by reflexivity.
    cbn [compileArgs lastWriteTime tu].
    destruct (list_eq_dec string_dec _ _) as [Heq|_].
    { exfalso. apply (f_equal (@length string)) in Heq.
      rewrite length_app in Heq. simpl in Heq. lia. }
    rewrite (fullRebuild_present env p _ _ s1 _
               (TUFacts.add_eq_o _ _ eq_refl)).
    cbv zeta. rewrite Hpa by reflexivity. unfold afterParse. fields.
    cbn [tu cxTU_].
    destruct (negb _);
      (eexists; eexists; split; [reflexivity|]; fields;
       rewrite <- app_assoc; reflexivity). }
  destruct H2 as (t2 & s2 & Hrun2 & Hcalls2).
  exists t1, s1, t2, s2. split; [reflexivity|].
  split; [unfold empty; cbn [cxTU_]; exact Hh|].
  split; assumption.
Qed.

End Further.

(** ** Requests for headers *)

Section Headers.

Context {E : Type} `{LibClang E}.
Variable env : Environment.

Lemma scanStored_run (p : FilePath.t)
      (l : list (string * StoredTranslationUnit)) (s : SourceIndex E) :
  scanStored p l s =
  Some (firstIncluding (engine s) (FilePath.absolutePath p) l,
        mkSourceIndex (index_ s) (verbose_ s) (translationUnits_ s)
          (engine s)
          (calls s ++ scanCalls (engine s) (FilePath.absolutePath p) l)
          (errorLog s)).
Proof.
  revert s. induction l as [|[k st] l IH]; intro s.
  - simpl. unfold ret. rewrite app_nil_r. destruct s; reflexivity.
  - simpl. unfold bind, includesFile. cbn [cxTU_].
    destruct (getFile (tu st) (FilePath.absolutePath p) (engine s)).
    + reflexivity.
    + rewrite IH. fields. rewrite <- app_assoc. reflexivity.
Qed.

Lemma scanCalls_questions (e : E) (file : string)
      (l : list (string * StoredTranslationUnit)) :
  forallb isGetFileCall (scanCalls e file l) = true.
Proof.
  induction l as [|[k st] l IH]; [reflexivity|].
  simpl. destruct (getFile (tu st) file e); [reflexivity | exact IH].
Qed.

Lemma firstIncluding_found (e : E) (file : string)
      (l : list (string * StoredTranslationUnit)) (t : TranslationUnit) :
  firstIncluding e file l = Some t ->
  exists pre st post,
    l = (pre ++ (filename_ t, st) :: post)%list /\
    tu st = cxTU_ t /\
    getFile (cxTU_ t) file e = true /\
    forall kv, In kv pre -> getFile (tu (snd kv)) file e = false.
Proof.
  induction l as [|[k st] l IH]; [discriminate|].
  simpl. destruct (getFile (tu st) file e) eqn:Hg.
  - intro Ht. injection Ht as <-. exists [], st, l. cbn [filename_ cxTU_].
    repeat split; auto. intros kv [].
  - intro Ht. destruct (IH Ht) as (pre & st' & post & Hl & Htu & Hin & Hpre).
    exists ((k, st) :: pre), st', post. rewrite Hl.
    repeat split; auto.
    intros kv [<-|Hkv]; [exact Hg | apply Hpre, Hkv].
Qed.

Lemma firstIncluding_exists (e : E) (file : string)
      (l : list (string * StoredTranslationUnit))
      (k : string) (st : StoredTranslationUnit) :
  In (k, st) l -> getFile (tu st) file e = true ->
  exists t, firstIncluding e file l = Some t.
Proof.
  induction l as [|[k' st'] l IH]; [intros []|].
  intros Hin Hg. simpl. destruct (getFile (tu st') file e) eqn:Hg'.
  - eexists. reflexivity.
  - destruct Hin as [Heq|Hin]; [|apply IH; assumption].
    injection Heq as -> ->. congruence.
Qed.

(** A hit of the scan, as a request. *)
Lemma getTranslationUnit_scan_hit
      (fuel : nat) (p : FilePath.t) (s : SourceIndex E) (t : TranslationUnit) :
  isTranslationUnit p = false ->
  firstIncluding (engine s) (FilePath.absolutePath p)
    (TranslationUnits.elements (translationUnits_ s)) = Some t ->
  getTranslationUnit env (S fuel) p s =
  Some (t, mkSourceIndex (index_ s) (verbose_ s) (translationUnits_ s)
             (engine s)
             (calls s ++
              scanCalls (engine s) (FilePath.absolutePath p)
                (TranslationUnits.elements (translationUnits_ s)))
             (errorLog s)).
Proof.
  intros Hp Hfirst. cbn [getTranslationUnit]. rewrite Hp. cbn [negb].
  unfold getHeaderTranslationUnitWith, bind, getUnits.
  rewrite scanStored_run, Hfirst. reflexivity.
Qed.

(** X7: when some stored unit includes the header, the request for the
    header is served from the map: it returns the first stored unit, in
    the order of the keys, that includes it; it asks libclang about
    included files and nothing else, and leaves the map and the library as
    they were.  One unit of fuel is enough. *)
Theorem header_request_served_from_map
        (fuel : nat) (p : FilePath.t) (s : SourceIndex E)
        (k : string) (stored : StoredTranslationUnit) :
  isTranslationUnit p = false ->
  TranslationUnits.find k (translationUnits_ s) = Some stored ->
  getFile (tu stored) (FilePath.absolutePath p) (engine s) = true ->
  exists t s' cs,
    getTranslationUnit env (S fuel) p s = Some (t, s') /\
    translationUnits_ s' = translationUnits_ s /\
    engine s' = engine s /\ errorLog s' = errorLog s /\
    calls s' = (calls s ++ cs)%list /\
    forallb isGetFileCall cs = true /\
    getFile (cxTU_ t) (FilePath.absolutePath p) (engine s) = true /\
    exists pre st post,
      TranslationUnits.elements (translationUnits_ s) =
        (pre ++ (filename_ t, st) :: post)%list /\
      tu st = cxTU_ t /\
      forall kv, In kv pre ->
                 getFile (tu (snd kv)) (FilePath.absolutePath p) (engine s)
                 = false.
Proof.
  intros Hp Hf Hg. apply find_elements in Hf.
  destruct (firstIncluding_exists _ _ _ _ _ Hf Hg) as (t & Hfirst).
  rewrite (getTranslationUnit_scan_hit fuel p s t Hp Hfirst).
  eexists. eexists. eexists. split; [reflexivity|]. fields.
  repeat (split; [reflexivity|]).
  split; [apply scanCalls_questions|].
  destruct (firstIncluding_found _ _ _ _ Hfirst)
    as (pre & st & post & Hl & Htu & Hin & Hpre).
  split; [exact Hin|]. exists pre, st, post. auto.
Qed.

(** What the loop over the source files returns is the empty result or a
    unit that includes the header, whatever [get] does. *)
Lemma searchSources_includes
      (get : FilePath.t -> M E TranslationUnit) (p : FilePath.t)
      (srcFiles : list FilePath.t) :
  forall (s s' : SourceIndex E) (t : TranslationUnit),
    searchSources get p srcFiles s = Some (t, s') ->
    t = emptyTranslationUnit \/
    (empty t = false /\
     getFile (cxTU_ t) (FilePath.absolutePath p) (engine s') = true).
Proof.
  induction srcFiles as [|src rest IH]; intros s s' t Hrun.
  - injection Hrun as <- _. left. reflexivity.
  - cbn [searchSources] in Hrun. unfold bind at 1 in Hrun.
    destruct (get src s) as [[t1 s1]|]; [|discriminate].
    destruct (empty t1) eqn:He; cbn [negb] in Hrun; [eapply IH; exact Hrun|].
    unfold bind at 1, includesFile at 1 in Hrun.
    destruct (getFile _ _ _) eqn:Hg.
    + injection Hrun as <- <-. right. split; [exact He | exact Hg].
    + unfold bind at 1 in Hrun. rewrite removeTranslationUnit_run in Hrun.
      eapply IH; exact Hrun.
Qed.

(** A result that is not empty is the handle of the entry of its file
    name. *)
Lemma getTranslationUnit_backed (fuel : nat) :
  forall (p : FilePath.t) (s s' : SourceIndex E) (t : TranslationUnit),
    handlesNonNull (translationUnits_ s) = true ->
    getTranslationUnit env fuel p s = Some (t, s') ->
    empty t = false ->
    exists st,
      TranslationUnits.find (filename_ t) (translationUnits_ s') = Some st /\
      tu st = cxTU_ t.
Proof.
  induction fuel as [|fuel IH]; intros p s s' t Hnn Hrun He; [discriminate|].
  destruct (isTranslationUnit p) eqn:Hp.
  - destruct (getTranslationUnit_result env fuel p s Hp Hnn)
      as (t0 & s0 & Hg & Hfull & _).
    rewrite Hrun in Hg. injection Hg as <- <-.
    destruct (Hfull He) as (Hname & st & Hst & Htu).
    exists st. rewrite Hname. auto.
  - cbn [getTranslationUnit] in Hrun. rewrite Hp in Hrun. cbn [negb] in Hrun.
    unfold getHeaderTranslationUnitWith, bind at 1, getUnits in Hrun.
    unfold bind at 1 in Hrun. rewrite scanStored_run in Hrun.
    destruct (firstIncluding _ _ _) as [t0|] eqn:Hfirst.
    + injection Hrun as <- <-. fields.
      destruct (firstIncluding_found _ _ _ _ Hfirst)
        as (pre & st & post & Hl & Htu & _).
      exists st. split; [|exact Htu]. apply find_elements. rewrite Hl.
      apply in_or_app. right. left. reflexivity.
    + match type of Hrun with searchSources _ _ _ ?s0 = _ =>
        assert (H0 : handlesNonNull (translationUnits_ s0) = true)
          by exact Hnn;
        generalize dependent s0 end.
      induction (translationUnits env) as [|src rest IHl]; intros s0 Hrun H0.
      * injection Hrun as <- _. discriminate He.
      * cbn [searchSources] in Hrun. unfold bind at 1 in Hrun.
        destruct (getTranslationUnit env fuel src s0) as [[t1 s1]|] eqn:Hg;
          [|discriminate].
        pose proof (getTranslationUnit_nonNull env _ _ _ _ _ H0 Hg) as H1.
        destruct (empty t1) eqn:He1; cbn [negb] in Hrun;
          [eapply IHl; eassumption|].
        unfold bind at 1, includesFile at 1 in Hrun.
        destruct (getFile _ _ _).
        -- injection Hrun as <- <-. fields.
           apply (IH src s0 s1 t1 H0 Hg He1).
        -- unfold bind at 1 in Hrun.
           rewrite removeTranslationUnit_run in Hrun.
           eapply IHl; [exact Hrun|].
           apply nonNull_entries. apply afterRemove_entries; [auto|].
           apply nonNull_entries. exact H1.
Qed.

(** X8: in an index without null handles, what a request for a header
    returns is the empty result or a unit that libclang reports as
    including the header and whose handle is the one stored under its file
    name; in the second case the same request made again is served from
    the map, with questions about included files as its only calls. *)
Theorem header_request_result
        (fuel fuel' : nat) (p : FilePath.t) (s s' : SourceIndex E)
        (t : TranslationUnit) :
  isTranslationUnit p = false ->
  handlesNonNull (translationUnits_ s) = true ->
  getTranslationUnit env fuel p s = Some (t, s') ->
  t = emptyTranslationUnit \/
  (empty t = false /\
   getFile (cxTU_ t) (FilePath.absolutePath p) (engine s') = true /\
   (exists st,
       TranslationUnits.find (filename_ t) (translationUnits_ s') = Some st /\
       tu st = cxTU_ t) /\
   exists t2 s2 cs,
     getTranslationUnit env (S fuel') p s' = Some (t2, s2) /\
     translationUnits_ s2 = translationUnits_ s' /\
     engine s2 = engine s' /\
     calls s2 = (calls s' ++ cs)%list /\
     forallb isGetFileCall cs = true /\
     getFile (cxTU_ t2) (FilePath.absolutePath p) (engine s') = true).
Proof.
  intros Hp Hnn Hrun.
  assert (Hinc : t = emptyTranslationUnit \/
                 (empty t = false /\
                  getFile (cxTU_ t) (FilePath.absolutePath p) (engine s')
                  = true)).
  { destruct fuel as [|fuel]; [discriminate|].
    pose proof Hrun as Hrun'.
    cbn [getTranslationUnit] in Hrun'. rewrite Hp in Hrun'.
    cbn [negb] in Hrun'.
    unfold getHeaderTranslationUnitWith, bind at 1, getUnits in Hrun'.
    unfold bind at 1 in Hrun'. rewrite scanStored_run in Hrun'.
    destruct (firstIncluding _ _ _) as [t0|] eqn:Hfirst.
    - injection Hrun' as <- <-. fields.
      destruct (firstIncluding_found _ _ _ _ Hfirst)
        as (pre & st & post & Hl & Htu & Hin & _).
      right. split; [|exact Hin]. unfold empty. rewrite <- Htu.
      apply N.eqb_neq.
      apply (proj1 (handlesNonNull_find _) Hnn (filename_ t0)).
      apply find_elements. rewrite Hl. apply in_or_app. right. left.
      reflexivity.
    - exact (searchSources_includes _ _ _ _ _ _ Hrun'). }
  destruct Hinc as [Hempty|[He Hg]]; [left; exact Hempty|].
  right. split; [exact He|]. split; [exact Hg|].
  destruct (getTranslationUnit_backed fuel p s s' t Hnn Hrun He)
    as (st & Hst & Htu).
  split; [exists st; auto|].
  pose proof Hst as Hin. apply find_elements in Hin.
  rewrite <- Htu in Hg.
  destruct (firstIncluding_exists _ _ _ _ _ Hin Hg) as (t2 & Hfirst).
  rewrite (getTranslationUnit_scan_hit fuel' p s' t2 Hp Hfirst).
  eexists. eexists. eexists. split; [reflexivity|]. fields.
  repeat (split; [reflexivity|]).
  split; [apply scanCalls_questions|].
  destruct (firstIncluding_found _ _ _ _ Hfirst) as (_ & _ & _ & _ & _ & H2 & _).
  exact H2.
Qed.

Lemma firstIncluding_none (e : E) (file : string)
      (l : list (string * StoredTranslationUnit)) :
  (forall k st, In (k, st) l -> getFile (tu st) file e = false) ->
  firstIncluding e file l = None.
Proof.
  induction l as [|[k st] l IH]; intro Hall; [reflexivity|].
  simpl. rewrite (Hall k st) by (left; reflexivity).
  apply IH. intros k' st' Hin. apply (Hall k' st'). right. exact Hin.
Qed.

(** X9: only translation units are stored.  When every key of the map is
    a translation unit's path, it is so after a request for any path, a
    priming, a repriming and a removal; a path that is no translation unit
    then has no entry, and the removal of its entry, the one that the loop
    over the source files asks for, finds nothing to dispose or erase. *)
Theorem only_translation_units_stored
        (fuel : nat) (p : FilePath.t) (filename : string)
        (s : SourceIndex E) :
  entriesSatisfy (fun k _ _ => isTranslationUnit k = true) s ->
  (forall t s', getTranslationUnit env fuel p s = Some (t, s') ->
     entriesSatisfy (fun k _ _ => isTranslationUnit k = true) s') /\
  (forall s', primeTranslationUnit env fuel p s = Some (tt, s') ->
     entriesSatisfy (fun k _ _ => isTranslationUnit k = true) s') /\
  (forall s', reprimeTranslationUnit env fuel p s = Some (tt, s') ->
     entriesSatisfy (fun k _ _ => isTranslationUnit k = true) s') /\
  (forall s', removeTranslationUnit filename s = Some (tt, s') ->
     entriesSatisfy (fun k _ _ => isTranslationUnit k = true) s') /\
  (forall q : FilePath.t,
      isTranslationUnit q = false ->
      TranslationUnits.find (FilePath.absolutePath q) (translationUnits_ s)
        = None /\
      removeTranslationUnit (FilePath.absolutePath q) s = Some (tt, s)).
Proof.
  intro Hk.
  assert (Hget : forall t s', getTranslationUnit env fuel p s = Some (t, s') ->
             entriesSatisfy (fun k _ _ => isTranslationUnit k = true) s').
  { intros t s' Hrun. eapply getTranslationUnit_keys; eassumption. }
  repeat match goal with |- _ /\ _ => split end.
  - exact Hget.
  - intros s' Hrun. unfold primeTranslationUnit, bind, getUnits in Hrun.
    destruct (TranslationUnits.find _ _).
    + injection Hrun as <-. exact Hk.
    + destruct (getTranslationUnit env fuel p s) as [[t s1]|] eqn:Hg;
        [|discriminate].
      injection Hrun as <-. eapply Hget. reflexivity.
  - intros s' Hrun. unfold reprimeTranslationUnit, bind, getUnits in Hrun.
    destruct (TranslationUnits.find _ _).
    + destruct (getTranslationUnit env fuel p s) as [[t s1]|] eqn:Hg;
        [|discriminate].
      injection Hrun as <-. eapply Hget. reflexivity.
    + injection Hrun as <-. exact Hk.
  - intros s' Hrun.
    eapply (removeTranslationUnit_entries
              (fun k _ _ => isTranslationUnit k = true));
      [| |exact Hrun]; auto.
  - intros q Hq.
    assert (Hnone : TranslationUnits.find (FilePath.absolutePath q)
                      (translationUnits_ s) = None).
    { destruct (TranslationUnits.find (FilePath.absolutePath q)
                  (translationUnits_ s)) as [st|] eqn:Hf; [|reflexivity].
      apply Hk in Hf. unfold FilePath.absolutePath in Hf. congruence. }
    split; [exact Hnone|].
    rewrite removeTranslationUnit_run, afterRemove_absent by exact Hnone.
    reflexivity.
Qed.

(** A header that the compilation database lists first, and that no
    stored unit includes, is requested again by its own request. *)
Lemma listed_header_loops (h : FilePath.t) (rest : list FilePath.t)
      (fuel : nat) :
  isTranslationUnit h = false ->
  translationUnits env = h :: rest ->
  forall s : SourceIndex E,
    (forall k st,
        TranslationUnits.find k (translationUnits_ s) = Some st ->
        getFile (tu st) (FilePath.absolutePath h) (engine s) = false) ->
    getTranslationUnit env fuel h s = None.
Proof.
  intros Hh Hlist. induction fuel as [|fuel IH]; intros s Hcold;
    [reflexivity|].
  cbn [getTranslationUnit]. rewrite Hh. cbn [negb].
  unfold getHeaderTranslationUnitWith, bind at 1, getUnits.
  unfold bind at 1. rewrite scanStored_run.
  rewrite firstIncluding_none
    by (intros k st Hin; apply (Hcold k), find_elements, Hin).
  rewrite Hlist. cbn [searchSources]. unfold bind at 1.
  rewrite IH; [reflexivity|]. exact Hcold.
Qed.

(** X10: the recursion between [getTranslationUnit] and
    [getHeaderTranslationUnit] has no end when the compilation database
    lists first a file that is no translation unit and that no stored unit
    includes: a request for a header that no stored unit includes then
    asks for that file, whose request asks for it again; no amount of fuel
    makes the request return. *)
Theorem listed_header_never_returns
        (fuel : nat) (p h : FilePath.t) (rest : list FilePath.t)
        (s : SourceIndex E) :
  isTranslationUnit p = false ->
  isTranslationUnit h = false ->
  translationUnits env = h :: rest ->
  (forall k st,
      TranslationUnits.find k (translationUnits_ s) = Some st ->
      getFile (tu st) (FilePath.absolutePath p) (engine s) = false /\
      getFile (tu st) (FilePath.absolutePath h) (engine s) = false) ->
  getTranslationUnit env fuel p s = None.
Proof.
  intros Hp Hh Hlist Hcold. destruct fuel as [|fuel]; [reflexivity|].
  cbn [getTranslationUnit]. rewrite Hp. cbn [negb].
  unfold getHeaderTranslationUnitWith, bind at 1, getUnits.
  unfold bind at 1. rewrite scanStored_run.
  rewrite firstIncluding_none
    by (intros k st Hin; apply (Hcold k), find_elements, Hin).
  rewrite Hlist. cbn [searchSources]. unfold bind at 1.
  rewrite (listed_header_loops h rest fuel Hh Hlist); [reflexivity|].
  intros k st Hf. apply (Hcold k st Hf).
Qed.

Lemma parseCount_app (a b : list Call) :
  parseCount (a ++ b) = (parseCount a + parseCount b)%nat.
Proof. unfold parseCount. rewrite filter_app, length_app. reflexivity. Qed.

Lemma parseCount_questions (cs : list Call) :
  forallb isGetFileCall cs = true -> parseCount cs = 0%nat.
Proof.
  induction cs as [|c cs IH]; [reflexivity|].
  simpl. intro Hall. apply andb_true_iff in Hall. destruct Hall as [Hc Hcs].
  unfold parseCount in *. simpl. destruct c; try discriminate.
  simpl. apply IH, Hcs.
Qed.

(** A request for a translation unit returns after one parse at most. *)
Lemma source_request_parses
      (fuel : nat) (q : FilePath.t) (s : SourceIndex E) :
  isTranslationUnit q = true ->
  exists t s' cs,
    getTranslationUnit env (S fuel) q s = Some (t, s') /\
    calls s' = (calls s ++ cs)%list /\
    (parseCount cs <= 1)%nat.
Proof.
  intro Hq. rewrite getTranslationUnit_source by assumption.
  request_cases stored Hf Hargs Htime Hret Hnull;
    (eexists; eexists; eexists; split; [reflexivity|]; fields;
     rewrite <- ?app_assoc;
     split; [try reflexivity; symmetry; apply app_nil_r|];
     unfold parseCount; simpl; lia).
Qed.

(** X11: a request for a header returns, with two units of fuel, when the
    compilation database lists translation units only; and it has then
    parsed no more often than there are listed source files. *)
Theorem header_request_returns
        (fuel : nat) (p : FilePath.t) (s : SourceIndex E) :
  isTranslationUnit p = false ->
  Forall (fun q => isTranslationUnit q = true) (translationUnits env) ->
  exists t s' cs,
    getTranslationUnit env (S (S fuel)) p s = Some (t, s') /\
    calls s' = (calls s ++ cs)%list /\
    (parseCount cs <= length (translationUnits env))%nat.
Proof.
  intros Hp Hall.
  change (getTranslationUnit env (S (S fuel)) p)
    with (if negb (isTranslationUnit p)
          then getHeaderTranslationUnitWith env
                 (getTranslationUnit env (S fuel)) p
          else getSourceTranslationUnit env p).
  rewrite Hp. cbn [negb].
  unfold getHeaderTranslationUnitWith, bind at 1, getUnits.
  unfold bind at 1. rewrite scanStored_run.
  pose proof (scanCalls_questions (engine s) (FilePath.absolutePath p)
                (TranslationUnits.elements (translationUnits_ s))) as Hq.
  apply parseCount_questions in Hq.
  destruct (firstIncluding _ _ _) as [t|].
  { eexists. eexists. eexists. split; [reflexivity|]. fields.
    split; [reflexivity|]. rewrite Hq. lia. }
  assert (Hloop : forall s0 : SourceIndex E,
             exists t s' cs,
               searchSources (getTranslationUnit env (S fuel)) p
                 (translationUnits env) s0 = Some (t, s') /\
               calls s' = (calls s0 ++ cs)%list /\
               (parseCount cs <= length (translationUnits env))%nat).
  { induction Hall as [|src rest Hsrc _ IH]; intro s0.
    - exists emptyTranslationUnit, s0, []. split; [reflexivity|].
      split; [symmetry; apply app_nil_r | unfold parseCount; simpl; lia].
    - cbn [searchSources]. unfold bind at 1.
      destruct (source_request_parses fuel src s0 Hsrc)
        as (t1 & s1 & c1 & Hg & Hc1 & Hn1).
      rewrite Hg. destruct (empty t1); cbn [negb].
      + destruct (IH s1) as (t & s' & cs & Hrun & Hc & Hn).
        exists t, s', (c1 ++ cs)%list. split; [exact Hrun|].
        split; [rewrite Hc, Hc1, app_assoc; reflexivity|].
        rewrite parseCount_app. simpl. lia.
      + unfold bind at 1, includesFile at 1.
        destruct (getFile _ _ _).
        * eexists. eexists. eexists. split; [reflexivity|]. fields.
          rewrite Hc1, <- app_assoc.
          split; [reflexivity|]. rewrite parseCount_app.
          unfold parseCount at 2. simpl. lia.
        * unfold bind at 1. rewrite removeTranslationUnit_run.
          match goal with |- context [searchSources _ _ _ ?s2] =>
            destruct (IH s2) as (t & s' & cs & Hrun & Hc & Hn);
            assert (Hc2 : exists c2, calls s2 = (calls s0 ++ c1 ++ c2)%list
                                     /\ parseCount c2 = 0%nat)
          end.
          { unfold afterRemove.
            destruct (TranslationUnits.find _ _); fields;
              rewrite Hc1, <- ?app_assoc; eexists;
              (split; [reflexivity|]); reflexivity. }
          destruct Hc2 as (c2 & Hc2 & Hn2).
          exists t, s', (c1 ++ c2 ++ cs)%list. split; [exact Hrun|].
          split; [rewrite Hc, Hc2, <- !app_assoc; reflexivity|].
          rewrite !parseCount_app. simpl. lia. }
  match goal with |- context [searchSources _ _ _ ?s0] =>
    destruct (Hloop s0) as (t & s' & cs & Hrun & Hc & Hn) end.
  exists t, s'. eexists. split; [exact Hrun|].
  split; [rewrite Hc; fields; rewrite <- app_assoc; reflexivity|].
  rewrite parseCount_app, Hq. simpl. exact Hn.
Qed.

End Headers.
(** ** Stored handles are live *)

Section Live.

Context {E : Type} `{FreshHandles E}.
Variable env : Environment.

Lemma handlesLive_start (s : SourceIndex E) :
  TranslationUnits.elements (translationUnits_ s) = [] ->
  (forall h, ~ In (DisposeCall h) (calls s)) ->
  handlesLive s.
Proof.
  intros Hel Hno.
  assert (Hnone : forall k st,
             TranslationUnits.find k (translationUnits_ s) <> Some st).
  { intros k st Hf. apply find_elements in Hf. rewrite Hel in Hf.
    destruct Hf. }
  repeat split.
  - exfalso. eapply Hnone; eassumption.
  - exfalso. eapply Hnone; eassumption.
  - intros h Hin. exfalso. exact (Hno h Hin).
  - intros k1 k2 st1 st2 Hf. exfalso. eapply Hnone; eassumption.
Qed.

(** Calls other than a dispose, and a library step that forgets no
    handle, keep the handles live. *)
Lemma handlesLive_step (s : SourceIndex E) (e : E) (cs : list Call)
      (log : list string) :
  handlesLive s ->
  (forall x, issued (engine s) x -> issued e x) ->
  (forall h, ~ In (DisposeCall h) cs) ->
  handlesLive (mkSourceIndex (index_ s) (verbose_ s) (translationUnits_ s)
                 e (calls s ++ cs) log).
Proof.
  intros (Hst & Hdis & Hinj) Hkeep Hno. repeat split; fields.
  - apply Hkeep. apply (Hst k st). assumption.
  - intro Hin. apply in_app_or in Hin. destruct Hin as [Hin|Hin].
    + exact (proj2 (Hst k st H1) Hin).
    + exact (Hno _ Hin).
  - intros h Hin. apply in_app_or in Hin. destruct Hin as [Hin|Hin].
    + apply Hkeep, Hdis, Hin.
    + exfalso. exact (Hno _ Hin).
  - exact Hinj.
Qed.

Lemma afterRemove_live (filename : string) (s : SourceIndex E) :
  handlesLive s -> handlesLive (afterRemove filename s).
Proof.
  intros Hlive. pose proof Hlive as (Hst & Hdis & Hinj). unfold afterRemove.
  destruct (TranslationUnits.find filename (translationUnits_ s))
    as [old|] eqn:Hf; [|exact Hlive].
  assert (Hother : forall k st,
             TranslationUnits.find k
               (TranslationUnits.remove filename (translationUnits_ s))
             = Some st ->
             k <> filename /\
             TranslationUnits.find k (translationUnits_ s) = Some st).
  { intros k st Hk. destruct (string_dec filename k) as [->|Hne].
    - rewrite TUFacts.remove_eq_o in Hk by reflexivity. discriminate.
    - rewrite TUFacts.remove_neq_o in Hk by assumption. split; congruence. }
  repeat split; fields.
  - apply dispose_keeps. apply Hother in H1. apply (Hst k st), H1.
  - apply Hother in H1. destruct H1 as [Hne Hk].
    intro Hin. apply in_app_or in Hin. destruct Hin as [Hin|[Heq|[]]].
    + exact (proj2 (Hst k st Hk) Hin).
    + injection Heq as Heq. apply Hne. symmetry.
      apply (Hinj filename k old st Hf Hk Heq).
  - intros h Hin. apply dispose_keeps.
    apply in_app_or in Hin. destruct Hin as [Hin|[Heq|[]]].
    + apply Hdis, Hin.
    + injection Heq as <-. apply (Hst filename old Hf).
  - intros k1 k2 st1 st2 H1 H2. apply Hother in H1, H2.
    apply (Hinj k1 k2 st1 st2); tauto.
Qed.

Lemma fullRebuild_live (p : FilePath.t) (args : list string) (w : Z)
      (s s' : SourceIndex E) (t : TranslationUnit) :
  handlesLive s -> fullRebuild env p args w s = Some (t, s') ->
  handlesLive s'.
Proof.
  intros Hlive Hrun. rewrite fullRebuild_run in Hrun. cbv zeta in Hrun.
  apply (afterRemove_live (FilePath.absolutePath p)) in Hlive.
  set (s1 := afterRemove (FilePath.absolutePath p) s) in *.
  set (a := parseArgs s1 args) in *.
  pose proof (parse_fresh (index_ s1) (FilePath.absolutePath p) a
                (unsavedFiles env) (engine s1)) as Hfresh.
  pose proof (parse_issued (index_ s1) (FilePath.absolutePath p) a
                (unsavedFiles env) (engine s1)) as Hissued.
  pose proof (parse_keeps (index_ s1) (FilePath.absolutePath p) a
                (unsavedFiles env) (engine s1)) as Hkeep.
  unfold afterParse in Hrun.
  destruct (fst (parseTranslationUnit _ _ _ _ _) =? NULL)%N eqn:Hh;
    cbn [negb] in Hrun; injection Hrun as _ <-.
  - apply handlesLive_step; [exact Hlive | exact Hkeep |].
    intros h [Heq|[]]. discriminate.
  - apply N.eqb_neq in Hh. specialize (Hfresh Hh). specialize (Hissued Hh).
    destruct Hlive as (Hst & Hdis & Hinj).
    set (h := fst (parseTranslationUnit (index_ s1) (FilePath.absolutePath p)
                     a (unsavedFiles env) (engine s1))) in *.
    assert (Hentry : forall k st,
               TranslationUnits.find k
                 (TranslationUnits.add (FilePath.absolutePath p)
                    {| compileArgs := a; lastWriteTime := w; tu := h |}
                    (translationUnits_ s1)) = Some st ->
               (k = FilePath.absolutePath p /\ tu st = h) \/
               (k <> FilePath.absolutePath p /\
                TranslationUnits.find k (translationUnits_ s1) = Some st)).
    { intros k st Hk.
      destruct (string_dec (FilePath.absolutePath p) k) as [<-|Hne].
      - rewrite TUFacts.add_eq_o in Hk by reflexivity.
        injection Hk as <-. left. auto.
      - rewrite TUFacts.add_neq_o in Hk by assumption. right.
        split; congruence. }
    assert (Hnew : forall k st,
               TranslationUnits.find k (translationUnits_ s1) = Some st ->
               tu st <> h).
    { intros k st Hk Heq. apply Hfresh. rewrite <- Heq.
      apply (Hst k st Hk). }
    repeat split; fields.
    + destruct (Hentry _ _ H1) as [[_ ->]|[_ Hk]];
        [exact Hissued | apply Hkeep, (Hst k st Hk)].
    + intro Hin. apply in_app_or in Hin.
      destruct Hin as [Hin|[Heq|[]]]; [|discriminate].
      destruct (Hentry _ _ H1) as [[_ Htu]|[_ Hk]].
      * apply Hfresh. rewrite <- Htu. apply Hdis, Hin.
      * exact (proj2 (Hst k st Hk) Hin).
    + intros x Hin. apply Hkeep. apply in_app_or in Hin.
      destruct Hin as [Hin|[Heq|[]]]; [apply Hdis, Hin | discriminate].
    + intros k1 k2 st1 st2 H1 H2 Heq.
      destruct (Hentry _ _ H1) as [[-> Ht1]|[Hn1 Hk1]];
        destruct (Hentry _ _ H2) as [[-> Ht2]|[Hn2 Hk2]].
      * reflexivity.
      * exfalso. apply (Hnew k2 st2 Hk2). congruence.
      * exfalso. apply (Hnew k1 st1 Hk1). congruence.
      * apply (Hinj k1 k2 st1 st2 Hk1 Hk2 Heq).
Qed.

Lemma getSourceTranslationUnit_live (p : FilePath.t)
      (s s' : SourceIndex E) (t : TranslationUnit) :
  handlesLive s -> getSourceTranslationUnit env p s = Some (t, s') ->
  handlesLive s'.
Proof.
  intros Hlive Hrun. rewrite getSourceTranslationUnit_run in Hrun.
  cbv zeta in Hrun.
  destruct (TranslationUnits.find (FilePath.absolutePath p)
              (translationUnits_ s)) as [stored|] eqn:Hf;
    [|eapply fullRebuild_live; eassumption].
  destruct (list_eq_dec string_dec _ _);
    [|eapply fullRebuild_live; eassumption].
  destruct (_ =? lastWriteTime stored)%Z.
  { injection Hrun as _ <-. exact Hlive. }
  assert (Hre : forall log,
             handlesLive
               (mkSourceIndex (index_ s) (verbose_ s) (translationUnits_ s)
                  (snd (reparseTranslationUnit (tu stored) (unsavedFiles env)
                          (engine s)))
                  (calls s ++ [ReparseCall (tu stored) (unsavedFiles env)])
                  log)).
  { intro log. apply handlesLive_step; [exact Hlive | |].
    - intros x. apply reparse_keeps.
    - intros h [Heq|[]]. discriminate. }
  destruct (_ =? 0)%Z.
  - injection Hrun as _ <-. unfold stored_as, afterReparse. fields.
    destruct (Hre (errorLog s)) as (Hst & Hdis & Hinj).
    cbn [index_ verbose_ translationUnits_ engine calls errorLog] in *.
    assert (Hentry : forall k st,
               TranslationUnits.find k
                 (TranslationUnits.add (FilePath.absolutePath p)
                    (touched stored (fileLastWriteTime env p))
                    (translationUnits_ s)) = Some st ->
               exists st0,
                 TranslationUnits.find k (translationUnits_ s) = Some st0 /\
                 tu st0 = tu st).
    { intros k st Hk.
      destruct (string_dec (FilePath.absolutePath p) k) as [<-|Hne].
      - rewrite TUFacts.add_eq_o in Hk by reflexivity.
        injection Hk as <-. exists stored. auto.
      - rewrite TUFacts.add_neq_o in Hk by assumption. exists st. auto. }
    repeat split; fields.
    + destruct (Hentry _ _ H1) as (st0 & Hk & <-). apply (Hst k st0 Hk).
    + destruct (Hentry _ _ H1) as (st0 & Hk & <-). apply (Hst k st0 Hk).
    + exact Hdis.
    + intros k1 k2 st1 st2 H1 H2 Heq.
      destruct (Hentry _ _ H1) as (a1 & Hk1 & Ha1).
      destruct (Hentry _ _ H2) as (a2 & Hk2 & Ha2).
      apply (Hinj k1 k2 a1 a2 Hk1 Hk2). congruence.
  - eapply fullRebuild_live; [|exact Hrun]. apply Hre.
Qed.

Lemma searchSources_live
      (get : FilePath.t -> M E TranslationUnit) (p : FilePath.t) :
  (forall q s s' t,
      handlesLive s -> get q s = Some (t, s') -> handlesLive s') ->
  forall srcFiles s s' t,
    handlesLive s ->
    searchSources get p srcFiles s = Some (t, s') ->
    handlesLive s'.
Proof.
  intros Hget srcFiles.
  induction srcFiles as [|src rest IH]; intros s s' t Hs Hrun.
  - injection Hrun as _ <-. exact Hs.
  - cbn [searchSources] in Hrun. unfold bind at 1 in Hrun.
    destruct (get src s) as [[t1 s1]|] eqn:Hg; [|discriminate].
    pose proof (Hget _ _ _ _ Hs Hg) as H1.
    destruct (empty t1); cbn [negb] in Hrun; [eapply IH; eassumption|].
    unfold bind at 1, includesFile at 1 in Hrun.
    assert (H2 : handlesLive
                   (mkSourceIndex (index_ s1) (verbose_ s1)
                      (translationUnits_ s1) (engine s1)
                      (calls s1 ++
                       [GetFileCall (cxTU_ t1) (FilePath.absolutePath p)])
                      (errorLog s1))).
    { apply handlesLive_step; [exact H1 | auto |].
      intros h [Heq|[]]. discriminate. }
    destruct (getFile _ _ _).
    + injection Hrun as _ <-. exact H2.
    + unfold bind at 1 in Hrun. rewrite removeTranslationUnit_run in Hrun.
      eapply IH; [|exact Hrun]. apply afterRemove_live. exact H2.
Qed.

Lemma scanCalls_no_dispose (e : E) (file : string)
      (l : list (string * StoredTranslationUnit)) (h : CXTranslationUnit) :
  ~ In (DisposeCall h) (scanCalls e file l).
Proof.
  induction l as [|[k st] l IH]; [intros []|].
  simpl. intros [Heq|Hin]; [discriminate|].
  destruct (getFile (tu st) file e); [destruct Hin | exact (IH Hin)].
Qed.

Lemma getTranslationUnit_live (fuel : nat) :
  forall (p : FilePath.t) (s s' : SourceIndex E) (t : TranslationUnit),
    handlesLive s -> getTranslationUnit env fuel p s = Some (t, s') ->
    handlesLive s'.
Proof.
  induction fuel as [|fuel IH]; intros p s s' t Hs Hrun; [discriminate|].
  cbn [getTranslationUnit] in Hrun.
  destruct (isTranslationUnit p) eqn:Hp; cbn [negb] in Hrun.
  - eapply getSourceTranslationUnit_live; eassumption.
  - unfold getHeaderTranslationUnitWith, bind at 1, getUnits in Hrun.
    unfold bind at 1 in Hrun. rewrite scanStored_run in Hrun.
    match type of Hrun with
    | context [mkSourceIndex ?i ?v ?m ?e ?c ?l] =>
        assert (Hscan : handlesLive (mkSourceIndex i v m e c l))
    end.
    { apply handlesLive_step; [exact Hs | auto |].
      intro h. apply scanCalls_no_dispose. }
    destruct (firstIncluding _ _ _) as [t1|].
    + injection Hrun as _ <-. exact Hscan.
    + eapply (searchSources_live (getTranslationUnit env fuel) p IH);
        [|exact Hrun].
      exact Hscan.
Qed.

Lemma disposedEngine_keeps (l : list (string * StoredTranslationUnit))
      (e : E) (x : CXTranslationUnit) :
  issued e x -> issued (disposedEngine l e) x.
Proof.
  revert e. induction l as [|kv l IH]; intros e Hx; [exact Hx|].
  simpl. apply IH. apply dispose_keeps. exact Hx.
Qed.

(** X12: no stored handle has been disposed.  With a library that never
    returns a handle twice, if every stored handle came from the library
    and was never given to [disposeTranslationUnit], and no two entries
    share a handle, then the same holds after a request for any path, a
    priming, a repriming, a removal and the removal of everything; and a
    result of a request that is not empty carries a handle that has not
    been disposed when the request returns. *)
Theorem stored_handles_are_live
        (fuel : nat) (p : FilePath.t) (filename : string)
        (s : SourceIndex E) :
  handlesLive s ->
  (forall t s', getTranslationUnit env fuel p s = Some (t, s') ->
                handlesLive s') /\
  (forall s', primeTranslationUnit env fuel p s = Some (tt, s') ->
              handlesLive s') /\
  (forall s', reprimeTranslationUnit env fuel p s = Some (tt, s') ->
              handlesLive s') /\
  (forall s', removeTranslationUnit filename s = Some (tt, s') ->
              handlesLive s') /\
  (forall s', removeAllTranslationUnits s = Some (tt, s') ->
              handlesLive s') /\
  (forall t s',
      handlesNonNull (translationUnits_ s) = true ->
      getTranslationUnit env fuel p s = Some (t, s') ->
      empty t = false ->
      ~ In (DisposeCall (cxTU_ t)) (calls s')).
Proof.
  intro Hlive.
  assert (Hget : forall t s', getTranslationUnit env fuel p s = Some (t, s') ->
                              handlesLive s').
  { intros t s' Hrun. eapply getTranslationUnit_live; eassumption. }
  repeat match goal with |- _ /\ _ => split end.
  - exact Hget.
  - intros s' Hrun. unfold primeTranslationUnit, bind, getUnits in Hrun.
    destruct (TranslationUnits.find _ _).
    + injection Hrun as <-. exact Hlive.
    + destruct (getTranslationUnit env fuel p s) as [[t s1]|] eqn:Hg;
        [|discriminate].
      injection Hrun as <-. eapply Hget. reflexivity.
  - intros s' Hrun. unfold reprimeTranslationUnit, bind, getUnits in Hrun.
    destruct (TranslationUnits.find _ _).
    + destruct (getTranslationUnit env fuel p s) as [[t s1]|] eqn:Hg;
        [|discriminate].
      injection Hrun as <-. eapply Hget. reflexivity.
    + injection Hrun as <-. exact Hlive.
  - intros s' Hrun. rewrite removeTranslationUnit_run in Hrun.
    injection Hrun as <-. apply afterRemove_live. exact Hlive.
  - intros s' Hrun. rewrite removeAllTranslationUnits_run in Hrun.
    injection Hrun as <-. destruct Hlive as (Hst & Hdis & _).
    assert (Hnone : forall k st,
               TranslationUnits.find k
                 (TranslationUnits.empty StoredTranslationUnit) <> Some st).
    { intros k st. rewrite TUFacts.empty_o. discriminate. }
    repeat split; fields.
    + exfalso. eapply Hnone; eassumption.
    + exfalso. eapply Hnone; eassumption.
    + intros h Hin. apply disposedEngine_keeps.
      apply in_app_or in Hin. destruct Hin as [Hin|Hin]; [apply Hdis, Hin|].
      unfold disposeCalls in Hin. apply in_map_iff in Hin.
      destruct Hin as ([k st] & Heq & Hin). injection Heq as <-.
      apply (Hst k st). apply find_elements. exact Hin.
    + intros k1 k2 st1 st2 H1. exfalso. eapply Hnone; eassumption.
  - intros t s' Hnn Hrun He.
    destruct (getTranslationUnit_backed env fuel p s s' t Hnn Hrun He)
      as (st & Hst & Htu).
    destruct (Hget t s' Hrun) as (Hlive' & _).
    rewrite <- Htu. apply (Hlive' _ _ Hst).
Qed.

End Live.

(** ** A header that nothing includes *)

Section NoIncluder.

Context {E : Type} `{LibClang E}.
Variable env : Environment.

(** X13: the request for a header that no unit includes, when the
    compilation database lists distinct translation units of which none
    is stored yet.  That no unit includes it is said of the library at
    hand: libclang does not find the header in a unit stored at the
    request, nor in the unit of a listed source file just after its
    parse, in the states of the library that [Inv] describes, which every
    parse keeps.  The request returns the empty result after exactly one
    parse per listed source file, in the order of the list; it disposes
    nothing, and every listed source file is stored when it returns,
    unless the failure of its parse was logged. *)
Theorem header_without_includer
        (fuel : nat) (p : FilePath.t) (s : SourceIndex E)
        (Inv : E -> Prop) :
  isTranslationUnit p = false ->
  Forall (fun q => isTranslationUnit q = true) (translationUnits env) ->
  NoDup (translationUnits env) ->
  (forall q, In q (translationUnits env) ->
             TranslationUnits.find (FilePath.absolutePath q)
               (translationUnits_ s) = None) ->
  entriesSatisfy (fun k _ _ => isTranslationUnit k = true) s ->
  (forall k st,
      TranslationUnits.find k (translationUnits_ s) = Some st ->
      getFile (tu st) (FilePath.absolutePath p) (engine s) = false) ->
  Inv (engine s) ->
  (forall i f a u e, Inv e -> Inv (snd (parseTranslationUnit i f a u e))) ->
  (forall q, In q (translationUnits env) ->
     forall i a u e,
       Inv e ->
       fst (parseTranslationUnit i (FilePath.absolutePath q) a u e) <> NULL ->
       getFile (fst (parseTranslationUnit i (FilePath.absolutePath q) a u e))
         (FilePath.absolutePath p)
         (snd (parseTranslationUnit i (FilePath.absolutePath q) a u e))
       = false) ->
  exists s' cs,
    getTranslationUnit env (S (S fuel)) p s
      = Some (emptyTranslationUnit, s') /\
    calls s' = (calls s ++ cs)%list /\
    map parsedFile (filter isParseCall cs) = translationUnits env /\
    (forall h, ~ In (DisposeCall h) cs) /\
    (forall q, In q (translationUnits env) ->
               TranslationUnits.find (FilePath.absolutePath q)
                 (translationUnits_ s') <> None \/
               In ("Error parsing translation unit " ++
                   FilePath.absolutePath q) (errorLog s')).
Proof.
  intros Hp Hall Hnd Hfresh Hkeys Hscan Hinv Hstep Hnoinc.
  change (getTranslationUnit env (S (S fuel)) p)
    with (if negb (isTranslationUnit p)
          then getHeaderTranslationUnitWith env
                 (getTranslationUnit env (S fuel)) p
          else getSourceTranslationUnit env p).
  rewrite Hp. cbn [negb].
  unfold getHeaderTranslationUnitWith, bind at 1, getUnits.
  unfold bind at 1. rewrite scanStored_run.
  rewrite firstIncluding_none
    by (intros k st Hin; apply (Hscan k st), find_elements, Hin).
  set (c0 := scanCalls (engine s) (FilePath.absolutePath p)
               (TranslationUnits.elements (translationUnits_ s))).
  assert (Hc0 : filter isParseCall c0 = [] /\
                forall h, ~ In (DisposeCall h) c0).
  { split; [|intro h; apply scanCalls_no_dispose].
    pose proof (scanCalls_questions (engine s) (FilePath.absolutePath p)
                  (TranslationUnits.elements (translationUnits_ s))) as Hq.
    fold c0 in Hq. clearbody c0.
    induction c0 as [|c l IH]; [reflexivity|].
    simpl in Hq. apply andb_prop in Hq. destruct Hq as [Hc Hl].
    destruct c; try discriminate Hc. simpl. exact (IH Hl). }
  destruct Hc0 as [Hc0p Hc0d].
  assert (Hloop : forall (l : list FilePath.t) (s0 : SourceIndex E),
             incl l (translationUnits env) ->
             Inv (engine s0) ->
             Forall (fun q => isTranslationUnit q = true) l ->
             NoDup l ->
             (forall q, In q l ->
                        TranslationUnits.find (FilePath.absolutePath q)
                          (translationUnits_ s0) = None) ->
             entriesSatisfy (fun k _ _ => isTranslationUnit k = true) s0 ->
             exists s' cs log,
               searchSources (getTranslationUnit env (S fuel)) p l s0
                 = Some (emptyTranslationUnit, s') /\
               calls s' = (calls s0 ++ cs)%list /\
               errorLog s' = (errorLog s0 ++ log)%list /\
               map parsedFile (filter isParseCall cs) = l /\
               (forall h, ~ In (DisposeCall h) cs) /\
               (forall k, ~ In k l ->
                          TranslationUnits.find k (translationUnits_ s') =
                          TranslationUnits.find k (translationUnits_ s0)) /\
               (forall q, In q l ->
                          TranslationUnits.find (FilePath.absolutePath q)
                            (translationUnits_ s') <> None \/
                          In ("Error parsing translation unit " ++
                              FilePath.absolutePath q) (errorLog s'))).
  { induction l as [|src rest IH]; intros s0 Hincl Hi0 Hl Hndl Hnew Hk0.
    - exists s0, [], []. split; [reflexivity|].
      rewrite !app_nil_r. repeat split; auto; intros q [].
    - inversion Hl as [|? ? Hsrc Hrest]; subst.
      inversion Hndl as [|? ? Hnotin Hndrest]; subst.
      assert (Hlisted : In src (translationUnits env))
        by (apply Hincl; left; reflexivity).
      assert (Hincl' : incl rest (translationUnits env))
        by (intros q Hq; apply Hincl; right; exact Hq).
      assert (Hf : TranslationUnits.find (FilePath.absolutePath src)
                     (translationUnits_ s0) = None)
        by (apply Hnew; left; reflexivity).
      cbn [searchSources]. unfold bind at 1.
      rewrite getTranslationUnit_source by assumption.
      rewrite getSourceTranslationUnit_run. cbv zeta. rewrite Hf.
      rewrite fullRebuild_absent by exact Hf. cbv zeta. unfold afterParse.
      destruct (fst (parseTranslationUnit _ _ _ _ _) =? NULL)%N eqn:Hnull;
        cbn [negb].
      + (* the parse failed *)
        change (empty emptyTranslationUnit) with true. cbn [negb].
        match goal with |- context [searchSources _ _ _ ?s1] =>
          destruct (IH s1 Hincl') as
            (s' & cs & log & Hrun & Hc & Hlog & Hparsed & Hnod & Hframe & Hst);
            [|exact Hrest|exact Hndrest| | |]
        end.
        { fields. apply Hstep. exact Hi0. }
        { intros q Hq. fields. apply Hnew. right. exact Hq. }
        { exact Hk0. }
        revert Hc Hlog Hframe. fields. intros Hc Hlog Hframe.
        exists s'. eexists. eexists. split; [exact Hrun|].
        split; [rewrite Hc, <- app_assoc; reflexivity|].
        split; [rewrite Hlog, <- app_assoc; reflexivity|].
        split; [cbn [app filter isParseCall map parsedFile];
                rewrite Hparsed; reflexivity|].
        split.
        { intros h [Heq|Hin]; [discriminate | exact (Hnod h Hin)]. }
        split.
        { intros k Hk. apply Hframe. intro Hin. apply Hk. right. exact Hin. }
        intros q [<-|Hq]; [|apply Hst, Hq].
        right. rewrite Hlog. apply in_or_app. left.
        apply in_or_app. right. left. reflexivity.
      + (* the parse succeeded *)
        unfold empty at 1. cbn [cxTU_]. rewrite Hnull. cbn [negb].
        unfold bind at 1, includesFile at 1. cbn [cxTU_]. fields.
        rewrite (Hnoinc src Hlisted _ _ _ _ Hi0)
          by (apply N.eqb_neq; exact Hnull).
        unfold bind at 1. rewrite removeTranslationUnit_run.
        assert (Hpsrc : FilePath.absolutePath p <> FilePath.absolutePath src).
        { unfold FilePath.absolutePath. congruence. }
        rewrite afterRemove_absent.
        2:{ fields. rewrite TUFacts.add_neq_o by congruence.
            destruct (TranslationUnits.find (FilePath.absolutePath p)
                        (translationUnits_ s0)) as [st|] eqn:Hfp;
              [|reflexivity].
            apply Hk0 in Hfp. unfold FilePath.absolutePath in Hfp.
            congruence. }
        match goal with |- context [searchSources _ _ _ ?s1] =>
          destruct (IH s1 Hincl') as
            (s' & cs & log & Hrun & Hc & Hlog & Hparsed & Hnod & Hframe & Hst);
            [|exact Hrest|exact Hndrest| | |]
        end.
        { fields. apply Hstep. exact Hi0. }
        { intros q Hq. fields.
          rewrite TUFacts.add_neq_o; [apply Hnew; right; exact Hq|].
          unfold FilePath.absolutePath. intros ->. exact (Hnotin Hq). }
        { intros k st. fields. intro Hk.
          destruct (string_dec (FilePath.absolutePath src) k) as [<-|Hne].
          - exact Hsrc.
          - rewrite TUFacts.add_neq_o in Hk by assumption.
            exact (Hk0 k st Hk). }
        revert Hc Hlog Hframe. fields. intros Hc Hlog Hframe.
        exists s'. eexists. eexists. split; [exact Hrun|].
        split; [rewrite Hc, <- !app_assoc; reflexivity|].
        split; [exact Hlog|].
        split; [cbn [app filter isParseCall map parsedFile];
                rewrite Hparsed; reflexivity|].
        split.
        { intros h [Heq|[Heq|Hin]]; [discriminate | discriminate |
                                      exact (Hnod h Hin)]. }
        split.
        { intros k Hk. rewrite Hframe by (intro Hin; apply Hk; right; exact Hin).
          apply TUFacts.add_neq_o. intros <-. apply Hk. left. reflexivity. }
        intros q [<-|Hq]; [|apply Hst, Hq].
        left. rewrite (Hframe (FilePath.absolutePath src)) by exact Hnotin.
        rewrite TUFacts.add_eq_o by reflexivity. discriminate. }
  match goal with |- context [searchSources _ _ _ ?s0] =>
    destruct (Hloop (translationUnits env) s0 (incl_refl _) Hinv Hall Hnd
                Hfresh Hkeys)
      as (s' & cs & log & Hrun & Hc & _ & Hparsed & Hnod & _ & Hst)
  end.
  revert Hc. fields. intro Hc.
  exists s', (c0 ++ cs)%list. split; [exact Hrun|].
  split; [rewrite Hc, <- app_assoc; reflexivity|].
  split; [rewrite filter_app, Hc0p; exact Hparsed|].
  split; [|exact Hst].
  intros h Hin. apply in_app_or in Hin.
  destruct Hin as [Hin|Hin]; [exact (Hc0d h Hin) | exact (Hnod h Hin)].
Qed.

End NoIncluder.

(** ** Compositions *)

Section Compositions.

Context {E : Type} `{LibClang E}.
Variable env : Environment.

Lemma removeEach_run (l : list (string * StoredTranslationUnit)) :
  forall s : SourceIndex E,
    NoDup (map fst l) ->
    (forall k st, In (k, st) l ->
                  TranslationUnits.find k (translationUnits_ s) = Some st) ->
    exists s',
      removeEach (map fst l) s = Some (tt, s') /\
      calls s' = (calls s ++ disposeCalls l)%list /\
      engine s' = disposedEngine l (engine s) /\
      errorLog s' = errorLog s /\ index_ s' = index_ s /\
      verbose_ s' = verbose_ s /\
      (forall k, In k (map fst l) ->
                 TranslationUnits.find k (translationUnits_ s') = None) /\
      (forall k, ~ In k (map fst l) ->
                 TranslationUnits.find k (translationUnits_ s') =
                 TranslationUnits.find k (translationUnits_ s)).
Proof.
  induction l as [|[k st] l IH]; intros s Hnd Hall.
  - exists s. split; [reflexivity|]. rewrite app_nil_r.
    repeat split; auto. intros k [].
  - cbn [map fst] in Hnd. inversion Hnd as [|? ? Hnotin Hndl]; subst.
    assert (Hk : TranslationUnits.find k (translationUnits_ s) = Some st)
      by (apply Hall; left; reflexivity).
    cbn [map fst removeEach]. unfold bind at 1.
    rewrite removeTranslationUnit_run. unfold afterRemove. rewrite Hk.
    match goal with |- context [removeEach _ ?s1] =>
      destruct (IH s1 Hndl) as
        (s' & Hrun & Hc & He & Hlog & Hi & Hv & Hgone & Hkept)
    end.
    { intros k' st' Hin. fields.
      rewrite TUFacts.remove_neq_o; [apply Hall; right; exact Hin|].
      intros <-. apply Hnotin. apply (in_map fst _ _ Hin). }
    revert Hc He Hlog Hi Hv Hkept. fields. intros Hc He Hlog Hi Hv Hkept.
    exists s'. split; [exact Hrun|].
    split; [rewrite Hc, <- app_assoc; reflexivity|].
    split; [exact He|]. split; [exact Hlog|]. split; [exact Hi|].
    split; [exact Hv|]. split.
    + intros k' [<-|Hin]; [|apply Hgone, Hin].
      rewrite Hkept by exact Hnotin. apply TUFacts.remove_eq_o. reflexivity.
    + intros k' Hk'. rewrite Hkept by (intro Hin; apply Hk'; right; exact Hin).
      apply TUFacts.remove_neq_o. intros <-. apply Hk'. left. reflexivity.
Qed.

(** X14: [removeAllTranslationUnits] does what [removeTranslationUnit]
    does on each stored path in the order of the map: the same dispose
    calls in the same order, the same state of the library, and a map
    without entries. *)
Theorem removeAll_is_remove_each (s : SourceIndex E) :
  exists s1 s2,
    removeAllTranslationUnits s = Some (tt, s1) /\
    removeEach (paths (translationUnits_ s)) s = Some (tt, s2) /\
    calls s2 = calls s1 /\ engine s2 = engine s1 /\
    errorLog s2 = errorLog s1 /\ index_ s2 = index_ s1 /\
    verbose_ s2 = verbose_ s1 /\
    TranslationUnits.elements (translationUnits_ s2) = [] /\
    TranslationUnits.elements (translationUnits_ s1) = [].
Proof.
  destruct (removeEach_run (TranslationUnits.elements (translationUnits_ s)) s)
    as (s2 & Hrun & Hc & He & Hlog & Hi & Hv & Hgone & Hkept).
  { apply paths_NoDup. }
  { intros k st Hin. apply find_elements. exact Hin. }
  eexists. exists s2. split; [apply removeAllTranslationUnits_run|].
  split; [exact Hrun|]. fields.
  repeat (split; [assumption|]).
  split; [|apply TUProps.elements_empty].
  destruct (TranslationUnits.elements (translationUnits_ s2))
    as [|[k st] l] eqn:Hel; [reflexivity|].
  exfalso.
  assert (Hk : TranslationUnits.find k (translationUnits_ s2) = Some st).
  { apply find_elements. rewrite Hel. left. reflexivity. }
  destruct (in_dec string_dec k
              (map fst (TranslationUnits.elements (translationUnits_ s))))
    as [Hin|Hnin].
  - rewrite (Hgone k Hin) in Hk. discriminate.
  - rewrite (Hkept k Hnin) in Hk. apply Hnin.
    apply find_elements in Hk. apply (in_map fst _ _ Hk).
Qed.

(** X15: what [initialize] decides for the requests that follow.  A
    request made to a constructed object before [initialize], or after an
    [initialize] that was given no compilation database, reads through the
    null [pCompilationDatabase_], whatever the path.  After [initialize]
    with a database, the index was created with diagnostics displayed
    exactly when the verbosity is positive, the request for a translation
    unit returns, its parse is made on the index that [createIndex]
    returned, with the arguments of that database, and "-v" is appended to
    them exactly when the verbosity is 2 or more. *)
Theorem initialize_then_request
        (fuel : nat) (p q : FilePath.t) (e : E) (verbose : Z) :
  isTranslationUnit p = true ->
  let args := compileArgsForTranslationUnit env p in
  let u := unsavedFiles env in
  let d := if (0 <? verbose)%Z then 1%Z else 0%Z in
  let i := fst (createIndex 0 d e) in
  Object.getTranslationUnit (S fuel) q (newSourceIndex e)
    = Object.NullDatabase /\
  (exists o,
      Object.initialize None verbose (newSourceIndex e)
        = Object.Returned tt o /\
      Object.getTranslationUnit (S fuel) q o = Object.NullDatabase) /\
  (exists o t s',
      Object.initialize (Some env) verbose (newSourceIndex e)
        = Object.Returned tt o /\
      Object.getTranslationUnit (S fuel) p o
        = Object.Returned t (Object.make (Some env) s') /\
      index_ s' = i /\ verbose_ s' = verbose /\
      calls s' =
        [CreateIndexCall 0 d;
         ParseCall i (FilePath.absolutePath p)
           (if (2 <=? verbose)%Z then (args ++ ["-v"])%list else args) u]).
Proof.
  intros Hp args u d i.
  assert (Hnone : forall (s : SourceIndex E),
             translationUnits_ s
             = TranslationUnits.empty StoredTranslationUnit ->
             TranslationUnits.find (FilePath.absolutePath p)
               (translationUnits_ s) = None).
  { intros s ->. apply TUFacts.empty_o. }
  split; [|split].
  - unfold Object.getTranslationUnit, newSourceIndex.
    cbn [Object.pCompilationDatabase_ Object.members translationUnits_].
    destruct (isTranslationUnit q); reflexivity.
  - unfold Object.initialize, initialize, newSourceIndex.
    cbn [Object.members engine]. fold d.
    destruct (createIndex 0 d e) as [i0 e0].
    eexists. split; [reflexivity|].
    unfold Object.getTranslationUnit.
    cbn [Object.pCompilationDatabase_ Object.members translationUnits_].
    destruct (isTranslationUnit q); reflexivity.
  - unfold Object.initialize, initialize, newSourceIndex.
    cbn [Object.members engine]. fold d. unfold i.
    destruct (createIndex 0 d e) as [i0 e0]. cbn [fst].
    eexists. 
    assert (Hrun : exists t s',
               getTranslationUnit env (S fuel) p
                 (mkSourceIndex i0 verbose
                    (TranslationUnits.empty StoredTranslationUnit) e0
                    ([] ++ [CreateIndexCall 0 d]) [])
               = Some (t, s') /\
               index_ s' = i0 /\ verbose_ s' = verbose /\
               calls s' =
                 [CreateIndexCall 0 d;
                  ParseCall i0 (FilePath.absolutePath p)
                    (if (2 <=? verbose)%Z
                     then (args ++ ["-v"])%list else args) u]).
    { rewrite getTranslationUnit_source by assumption.
      rewrite getSourceTranslationUnit_run. cbv zeta. fields.
      rewrite TUFacts.empty_o.
      match goal with |- context [fullRebuild env p ?a ?w ?s0] =>
        rewrite (fullRebuild_absent env p a w s0 (Hnone s0 eq_refl)) end.
      cbv zeta. unfold afterParse, parseArgs. fields. fold u. fold args.
      destruct (negb _);
        (eexists; eexists; split; [reflexivity|]; fields; repeat split). }
    destruct Hrun as (t & s' & Hrun & Hi & Hv & Hc).
    exists t, s'. split; [reflexivity|].
    unfold Object.getTranslationUnit.
    cbn [Object.pCompilationDatabase_ Object.members]. fields.
    rewrite Hrun. repeat split; assumption.
Qed.

(** X16: a failed parse is not remembered.  [primeTranslationUnit] on a
    translation unit without entry makes one parse; when the parse
    succeeded a second priming does nothing, and when it failed the second
    priming parses the file again, with the same arguments. *)
Theorem prime_twice
        (fuel : nat) (p : FilePath.t) (s : SourceIndex E) :
  isTranslationUnit p = true ->
  TranslationUnits.find (FilePath.absolutePath p) (translationUnits_ s)
    = None ->
  let parse :=
    ParseCall (index_ s) (FilePath.absolutePath p)
      (parseArgs s (compileArgsForTranslationUnit env p)) (unsavedFiles env) in
  let h :=
    fst (parseTranslationUnit (index_ s) (FilePath.absolutePath p)
           (parseArgs s (compileArgsForTranslationUnit env p))
           (unsavedFiles env) (engine s)) in
  exists s1 s2,
    primeTranslationUnit env (S fuel) p s = Some (tt, s1) /\
    calls s1 = (calls s ++ [parse])%list /\
    primeTranslationUnit env (S fuel) p s1 = Some (tt, s2) /\
    (h <> NULL -> s2 = s1) /\
    (h = NULL -> calls s2 = (calls s1 ++ [parse])%list).
Proof.
  intros Hp Hf parse h.
  unfold primeTranslationUnit at 1. unfold bind at 1, getUnits. rewrite Hf.
  unfold bind at 1. rewrite getTranslationUnit_source by assumption.
  rewrite getSourceTranslationUnit_run. cbv zeta. rewrite Hf.
  rewrite fullRebuild_absent by exact Hf. cbv zeta. fold h.
  unfold afterParse. destruct (h =? NULL)%N eqn:Hh; cbn [negb ret].
  - (* failed: the path still has no entry *)
    match goal with |- context [ret tt ?x] => set (s1 := x) end.
    unfold ret at 1.
    assert (Hf1 : TranslationUnits.find (FilePath.absolutePath p)
                    (translationUnits_ s1) = None) by exact Hf.
    exists s1. unfold primeTranslationUnit, bind at 1, getUnits. rewrite Hf1.
    unfold bind at 1. rewrite getTranslationUnit_source by assumption.
    rewrite getSourceTranslationUnit_run. cbv zeta. rewrite Hf1.
    rewrite fullRebuild_absent by exact Hf1. cbv zeta. unfold afterParse.
    destruct (negb _); unfold ret;
      (eexists; split; [reflexivity|]; split; [reflexivity|];
       split; [reflexivity|]; split;
       [intro Hn; apply N.eqb_eq in Hh; contradiction | intros _; reflexivity]).
  - match goal with |- context [ret tt ?x] => set (s1 := x) end.
    unfold ret at 1.
    exists s1, s1. split; [reflexivity|]. split; [reflexivity|].
    split.
    + unfold primeTranslationUnit, bind, getUnits. unfold s1 at 1. fields.
      rewrite TUFacts.add_eq_o by reflexivity. reflexivity.
    + split; [reflexivity|]. intro Hn. apply N.eqb_neq in Hh. contradiction.
Qed.

End Compositions.

(** ** The further properties at work on the concrete runs *)

Lemma request_touches_own_entry_witness :
  exists t s',
    getTranslationUnit Scenario.envFlags 1 "/a.cpp" Runs.warmBoth
      = Some (t, s') /\
    TranslationUnits.find "/b.cpp" (translationUnits_ s') = Some Runs.storedB.
Proof.
  destruct (request_touches_own_entry Scenario.envFlags 0 "/a.cpp"
              Runs.warmBoth) as (t & s' & Hrun & Hframe & _).
  - reflexivity.
  - exists t, s'. split; [exact Hrun|].
    rewrite (Hframe "/b.cpp"); [reflexivity | discriminate].
Defined.

Lemma request_calls_witness :
  exists t s' cs,
    getTranslationUnit Scenario.envTouched 1 "/a.cpp" Scenario.warm
      = Some (t, s') /\
    calls s' = (calls Scenario.warm ++ cs)%list.
Proof.
  destruct (request_calls Scenario.envTouched 0 "/a.cpp" Scenario.warm)
    as (t & s' & cs & Hrun & Hc & _).
  - reflexivity.
  - exists t, s', cs. split; [exact Hrun | exact Hc].
Defined.

Lemma request_log_witness :
  exists t s' l,
    getTranslationUnit Scenario.env 1 "/b.cpp" Scenario.coldFailing
      = Some (t, s') /\
    errorLog s' = (errorLog Scenario.coldFailing ++ l)%list /\
    (empty t = true <-> In "Error parsing translation unit /b.cpp" l).
Proof.
  destruct (request_log Scenario.env 0 "/b.cpp" Scenario.coldFailing)
    as (t & s' & l & Hrun & Hlog & _ & Hiff).
  - reflexivity.
  - reflexivity.
  - exists t, s', l. split; [exact Hrun|]. split; [exact Hlog | exact Hiff].
Defined.

Lemma request_twice_witness :
  exists t s',
    getTranslationUnit Scenario.env 1 "/a.cpp" Scenario.cold = Some (t, s') /\
    getTranslationUnit Scenario.env 1 "/a.cpp" s' = Some (t, s').
Proof.
  destruct (request_twice Scenario.env 0 "/a.cpp" Scenario.cold)
    as (t & s' & Hrun & _ & _ & Hagain).
  - reflexivity.
  - reflexivity.
  - simpl. lia.
  - simpl. unfold NULL. lia.
  - exists t, s'. split; [exact Hrun | exact Hagain].
Defined.

Lemma verbose_request_twice_witness :
  exists t s1 t2 s2,
    getTranslationUnit Scenario.env 1 "/a.cpp" Runs.coldVerbose
      = Some (t, s1) /\
    getTranslationUnit Scenario.env 1 "/a.cpp" s1 = Some (t2, s2) /\
    calls s2 =
      (calls s1 ++
       [DisposeCall (cxTU_ t);
        ParseCall 1%N "/a.cpp" ["-std=c++11"; "-v"] []])%list.
Proof.
  destruct (verbose_request_twice Scenario.env 0 "/a.cpp" Runs.coldVerbose)
    as (t & s1 & t2 & s2 & Hrun & _ & Hagain & Hc).
  - reflexivity.
  - reflexivity.
  - simpl. lia.
  - simpl. unfold NULL. lia.
  - exists t, s1, t2, s2. split; [exact Hrun|].
    split; [exact Hagain | exact Hc].
Defined.

Lemma header_request_served_from_map_witness :
  exists t s' cs,
    getTranslationUnit Scenario.env 1 "/util.h" Runs.warmBoth = Some (t, s') /\
    translationUnits_ s' = translationUnits_ Runs.warmBoth /\
    calls s' = (calls Runs.warmBoth ++ cs)%list /\
    forallb isGetFileCall cs = true.
Proof.
  destruct (header_request_served_from_map Scenario.env 0 "/util.h"
              Runs.warmBoth "/a.cpp" Scenario.storedA)
    as (t & s' & cs & Hrun & Hunits & _ & _ & Hc & Hq & _).
  - reflexivity.
  - reflexivity.
  - reflexivity.
  - exists t, s', cs. split; [exact Hrun|]. split; [exact Hunits|].
    split; [exact Hc | exact Hq].
Defined.

Lemma header_request_result_witness :
  exists t2 s2 cs,
    getTranslationUnit Scenario.env 1 "/util.h" Runs.warmAsked
      = Some (t2, s2) /\
    calls s2 = (calls Runs.warmAsked ++ cs)%list /\
    forallb isGetFileCall cs = true.
Proof.
  destruct (header_request_result Scenario.env 1 0 "/util.h" Scenario.warm
              Runs.warmAsked {| filename_ := "/a.cpp"; cxTU_ := 1%N |})
    as [Hempty|(_ & _ & _ & t2 & s2 & cs & Hrun & _ & _ & Hc & Hq & _)].
  - reflexivity.
  - reflexivity.
  - reflexivity.
  - discriminate Hempty.
  - exists t2, s2, cs. split; [exact Hrun|]. split; [exact Hc | exact Hq].
Defined.

Lemma only_translation_units_stored_witness :
  TranslationUnits.find "/util.h" (translationUnits_ Scenario.warm) = None /\
  removeTranslationUnit "/util.h" Scenario.warm = Some (tt, Scenario.warm).
Proof.
  apply (only_translation_units_stored Scenario.env 1 "/util.h" "/util.h"
           Scenario.warm).
  - intros k st Hf. apply find_elements in Hf. simpl in Hf.
    destruct Hf as [Heq|[]]. injection Heq as <- _. reflexivity.
  - reflexivity.
Defined.

Lemma listed_header_never_returns_witness :
  getTranslationUnit Runs.envHeaderListed 7 "/util.h" Scenario.cold = None.
Proof.
  apply (listed_header_never_returns Runs.envHeaderListed 7 "/util.h"
           "/util.h" ["/a.cpp"] Scenario.cold).
  - reflexivity.
  - reflexivity.
  - reflexivity.
  - intros k st Hf. simpl in Hf. rewrite TUFacts.empty_o in Hf.
    discriminate Hf.
Defined.

Lemma header_request_returns_witness :
  exists t s' cs,
    getTranslationUnit Scenario.env 2 "/util.h" Scenario.cold = Some (t, s') /\
    calls s' = (calls Scenario.cold ++ cs)%list /\
    (parseCount cs <= 2)%nat.
Proof.
  apply (header_request_returns Scenario.env 0 "/util.h" Scenario.cold).
  - reflexivity.
  - simpl. repeat constructor.
Defined.

Lemma stored_handles_are_live_witness :
  handlesLive Scenario.cold /\
  forall t s',
    getTranslationUnit Scenario.env 2 "/util.h" Scenario.cold = Some (t, s') ->
    handlesLive s'.
Proof.
  assert (Hcold : handlesLive Scenario.cold).
  { apply handlesLive_start; [reflexivity|].
    intros h [Heq|[]]. discriminate Heq. }
  split; [exact Hcold|].
  apply (stored_handles_are_live Scenario.env 2 "/util.h" "/util.h"
           Scenario.cold Hcold).
Defined.

Lemma header_without_includer_witness :
  exists s' cs,
    getTranslationUnit Scenario.env 2 "/other.h" Scenario.cold
      = Some (emptyTranslationUnit, s') /\
    calls s' = (calls Scenario.cold ++ cs)%list /\
    map parsedFile (filter isParseCall cs) = ["/b.cpp"; "/a.cpp"] /\
    (forall h, ~ In (DisposeCall h) cs) /\
    TranslationUnits.find "/a.cpp" (translationUnits_ s') <> None /\
    TranslationUnits.find "/b.cpp" (translationUnits_ s') <> None.
Proof.
  destruct (header_without_includer Scenario.env 0 "/other.h" Scenario.cold
              (fun e => Scripted.includes e = [("/a.cpp", "/util.h")]))
    as (s' & cs & Hrun & Hc & Hparsed & Hnod & Hst).
  - reflexivity.
  - simpl. repeat constructor.
  - simpl. repeat constructor; simpl; intuition discriminate.
  - intros q _. simpl. apply TUFacts.empty_o.
  - intros k st Hf. simpl in Hf. rewrite TUFacts.empty_o in Hf.
    discriminate Hf.
  - intros k st Hf. simpl in Hf. rewrite TUFacts.empty_o in Hf.
    discriminate Hf.
  - reflexivity.
  - intros i f a u e He. simpl. unfold Scripted.parse.
    destruct (Scripted.mem f (Scripted.failing e)); exact He.
  - intros q _ i a u e He _. simpl. unfold Scripted.file.
    destruct (Scripted.fileOf _ _) as [src|]; [|reflexivity].
    assert (Hsame : Scripted.includes
                      (snd (Scripted.parse i (FilePath.absolutePath q) a u e))
                    = [("/a.cpp", "/util.h")]).
    { unfold Scripted.parse.
      destruct (Scripted.mem _ (Scripted.failing e)); exact He. }
    rewrite Hsame. simpl. rewrite Bool.andb_false_r. reflexivity.
  - exists s', cs. split; [exact Hrun|]. split; [exact Hc|].
    split; [exact Hparsed|]. split; [exact Hnod|].
    assert (Hlog : errorLog s' = []).
    { revert Hrun. vm_compute. intro Hrun. injection Hrun as <-.
      reflexivity. }
    split.
    + destruct (Hst "/a.cpp") as [Hin|Hin].
      * simpl. right. left. reflexivity.
      * exact Hin.
      * rewrite Hlog in Hin. destruct Hin.
    + destruct (Hst "/b.cpp") as [Hin|Hin].
      * simpl. left. reflexivity.
      * exact Hin.
      * rewrite Hlog in Hin. destruct Hin.
Defined.

Lemma initialize_then_request_witness :
  Object.getTranslationUnit 1 "/a.cpp" (newSourceIndex Scenario.lib)
    = Object.NullDatabase /\
  exists o t s',
    Object.initialize (Some Scenario.env) 2 (newSourceIndex Scenario.lib)
      = Object.Returned tt o /\
    Object.getTranslationUnit 1 "/a.cpp" o
      = Object.Returned t (Object.make (Some Scenario.env) s') /\
    calls s' = [CreateIndexCall 0 1;
                ParseCall 1%N "/a.cpp" ["-std=c++11"; "-v"] []].
Proof.
  destruct (initialize_then_request Scenario.env 0 "/a.cpp" "/a.cpp"
              Scenario.lib 2)
    as (Hnull & _ & o & t & s' & Hinit & Hrun & _ & _ & Hc).
  - reflexivity.
  - split; [exact Hnull|].
    exists o, t, s'. split; [exact Hinit|]. split; [exact Hrun | exact Hc].
Defined.

Lemma prime_twice_witness :
  exists s1 s2,
    primeTranslationUnit Scenario.env 1 "/b.cpp" Scenario.coldFailing
      = Some (tt, s1) /\
    primeTranslationUnit Scenario.env 1 "/b.cpp" s1 = Some (tt, s2) /\
    calls s2 =
      (calls s1 ++ [ParseCall 1%N "/b.cpp" Scenario.flags []])%list.
Proof.
  destruct (prime_twice Scenario.env 0 "/b.cpp" Scenario.coldFailing)
    as (s1 & s2 & Hrun & _ & Hagain & _ & Hfail).
  - reflexivity.
  - reflexivity.
  - exists s1, s2. split; [exact Hrun|]. split; [exact Hagain|].
    apply Hfail. reflexivity.
Defined.
